(** * sampctl / rook: package manifests and dependency resolution

    A shallow embedding of [rook/rook.go] (the [Package] struct, [String],
    [Validate], [GetURL], [PackageFromDep], [EnsureDependencies]) and of the
    [types.Package] struct, with the properties the specification states
    about them.

    Go values are modelled as follows.
    - [string] is [string]; [==] on strings is [String.eqb].
    - a slice read front to back is a [list].
    - an [error] is [option error]: [None] is [nil].
    - a method with a value receiver gets its receiver as an argument and
      hands back the receiver copy it holds when it returns, so that
      "no field is written" is a statement about the model.
    - everything outside the file that the code calls and that touches the
      disk or the network ([util.Exists], [EnsurePackage]) acts on an
      abstract world; the calls of [EnsurePackage] are logged. *)

From Stdlib Require Import String Ascii List Bool Relations.
Import ListNotations.
Open Scope list_scope.
Open Scope string_scope.

(** ** Errors ([github.com/pkg/errors]) *)

(** [errors.New] and [errors.Errorf] build an error that carries a text;
    [errors.Wrap] and [errors.Wrapf] put a message in front of a cause. *)
Inductive error : Type :=
| errors_New (text : string)
| errors_Wrap (cause : error) (message : string).

(** The [Error()] method: a wrapped error prints as [message: cause]. *)
Fixpoint Error (e : error) : string :=
  match e with
  | errors_New text => text
  | errors_Wrap cause message => message ++ ": " ++ Error cause
  end.

(** [fmt.Sprintf] for the verbs the code uses, [%s] and [%v], on arguments
    already turned into text ([String()] for a [Package], [Error()] for an
    error, the string itself for a string type).  A verb with no argument
    left prints Go's [%!s(MISSING)]; every call in [rook.go] passes as many
    arguments as its format has verbs. *)
Fixpoint Sprintf (format : string) (args : list string) : string :=
  match format with
  | EmptyString => EmptyString
  | String c rest =>
      match c, rest with
      | "%"%char, String v rest' =>
          if (Ascii.eqb v "s" || Ascii.eqb v "v")%bool then
            match args with
            | a :: args' => a ++ Sprintf rest' args'
            | [] => String "%" (String "!" (String v "(MISSING)")) ++ Sprintf rest' []
            end
          else String c (Sprintf rest args)
      | _, _ => String c (Sprintf rest args)
      end
  end.

Definition errors_Errorf (format : string) (args : list string) : error :=
  errors_New (Sprintf format args).

(** [errors.Wrapf(err, ...)] for [err != nil], the only way the code calls it. *)
Definition errors_Wrapf (cause : error) (format : string) (args : list string) : error :=
  errors_Wrap cause (Sprintf format args).

(** [s] has [sub] as a substring. *)
Definition contains (s sub : string) : Prop :=
  exists before after, s = before ++ sub ++ after.

(** ** The data model of [rook.go] *)

(** Modelled from the spec: the type [DependencyString] is declared outside
    [rook.go]; section 6 of the specification gives it as the dependency
    reference string, the text [owner/repository[:subpath][@version]]. *)
Definition DependencyString : Type := string.

(** [PackageMeta]: all the components required to locate a package version. *)
Record PackageMeta : Type := {
  User : string;
  Repo : string;
  Path : string;
  Version : string
}.

(** [Resource]; the [Files] map is kept as its list of key and value pairs. *)
Record Resource : Type := {
  Name : string;
  Platform : string;
  Archive : bool;
  Includes : list string;
  Plugins : list string;
  Files : list (string * string)
}.

Definition PackageMeta_eqb (a b : PackageMeta) : bool :=
  (User a =? User b) && (Repo a =? Repo b) && (Path a =? Path b)
  && (Version a =? Version b).

Section Rook.

(** [compiler.Config], the build configuration, is opaque to this file. *)
Variable Config : Type.

(** [Package]; the embedded [PackageMeta] is the field [Meta], so Go's
    [pkg.User] is [User (Meta pkg)]. *)
Record Package : Type := {
  local : string;
  Meta : PackageMeta;
  Contributors : list string;
  Website : string;
  Entry : string;
  Output : string;
  Dependencies : list DependencyString;
  Builds : list Config;
  Resources : list Resource
}.

(** [func (pkg Package) String() string] *)
Definition Package_String (pkg : Package) : string :=
  Sprintf "%s/%s:%s" [User (Meta pkg); Repo (Meta pkg); Version (Meta pkg)].

(** The three errors of [Validate]. *)
Definition errMissingEntry : error :=
  errors_New "package does not define an entry point".
Definition errMissingOutput : error :=
  errors_New "package does not define an output file".
Definition errEntryEqualsOutput : error :=
  errors_New "package entry and output point to the same file".

(** [func (pkg Package) Validate() (err error)] *)
Definition Validate (pkg : Package) : option error :=
  if Entry pkg =? "" then Some errMissingEntry
  else if Output pkg =? "" then Some errMissingOutput
  else if Entry pkg =? Output pkg then Some errEntryEqualsOutput
  else None.

(** [func (pkg Package) GetURL() string] *)
Definition GetURL (pkg : Package) : string :=
  Sprintf "https://github.com/%s/%s" [User (Meta pkg); Repo (Meta pkg)].

(** *** What [rook.go] calls and does not define *)

(** The state of the disk and of the remote repositories. *)
Variable World : Type.

(** [DependencyString.Explode]: the parser of a dependency reference; its
    result has the fields [User], [Repo], [Path] and [Version] that
    [PackageFromDep] reads, and an error. *)
Variable Explode : DependencyString -> PackageMeta * option error.

(** [util.Exists(path)]: reads the disk. *)
Variable Exists : string -> World -> bool.

(** [filepath.Join] of two elements. *)
Variable Join : string -> string -> string.

(** [EnsurePackage(vendorDirectory, pkg)]: the fetch of one package into
    the vendor directory; it changes the world and may fail. *)
Variable EnsurePackage : string -> Package -> World -> World * option error.

(** *** State: the world and the log of fetch calls *)

Record Fetch : Type := {
  fetch_dir : string;
  fetch_dep : Package
}.

Record State : Type := {
  world : World;
  fetched : list Fetch     (* calls of EnsurePackage so far, oldest first *)
}.

Definition M (A : Type) : Type := State -> A * State.

Definition ret {A : Type} (a : A) : M A := fun s => (a, s).

Definition bind {A B : Type} (m : M A) (k : A -> M B) : M B :=
  fun s => let (a, s') := m s in k a s'.

Definition call_Exists (path : string) : M bool :=
  fun s => (Exists path (world s), s).

Definition call_EnsurePackage (vendorDir : string) (dep : Package)
  : M (option error) :=
  fun s =>
    let (w', err) := EnsurePackage vendorDir dep (world s) in
    (err, {| world := w';
             fetched := (fetched s
                         ++ [{| fetch_dir := vendorDir; fetch_dep := dep |}])%list |}).

(** *** [PackageFromDep] and [EnsureDependencies] *)

(** The zero value of [Package], the named result [pkg] of
    [PackageFromDep] before its four identity fields are assigned. *)
Definition zeroPackage : Package :=
  {| local := ""; Meta := {| User := ""; Repo := ""; Path := ""; Version := "" |};
     Contributors := []; Website := ""; Entry := ""; Output := "";
     Dependencies := []; Builds := []; Resources := [] |}.

(** [func PackageFromDep(depString DependencyString) (pkg Package, err error)]:
    the fields are copied whether or not [Explode] failed, and the error of
    [Explode] is the error returned. *)
Definition PackageFromDep (depString : DependencyString)
  : Package * option error :=
  let (dep, err) := Explode depString in
  ({| local := local zeroPackage;
      Meta := {| User := User dep; Repo := Repo dep;
                 Path := Path dep; Version := Version dep |};
      Contributors := Contributors zeroPackage;
      Website := Website zeroPackage;
      Entry := Entry zeroPackage;
      Output := Output zeroPackage;
      Dependencies := Dependencies zeroPackage;
      Builds := Builds zeroPackage;
      Resources := Resources zeroPackage |}, err).

(** The [for _, depString := range pkg.Dependencies] loop: [None] when the
    loop runs to its end, [Some e] when the body returns [e]. *)
Fixpoint ensureLoop (vendorDir : string) (deps : list DependencyString)
  : M (option error) :=
  match deps with
  | [] => ret None
  | depString :: rest =>
      let (dep, err) := PackageFromDep depString in
      match err with
      | Some e =>
          ret (Some (errors_Errorf "package dependency '%s' is invalid: %v"
                       [depString; Error e]))
      | None =>
          bind (call_EnsurePackage vendorDir dep) (fun err =>
          match err with
          | Some e =>
              ret (Some (errors_Wrapf e "failed to ensure package %s"
                           [Package_String dep]))
          | None => ensureLoop vendorDir rest
          end)
      end
  end.

Definition errNotLocal : error :=
  errors_New "package does not represent a locally stored package".
Definition errLocalMissing : error :=
  errors_New "package local path does not exist".

(** [func (pkg Package) EnsureDependencies() (err error)]: the result is
    the receiver copy at the return and the error. *)
Definition EnsureDependencies (pkg : Package) : M (Package * option error) :=
  if local pkg =? "" then ret (pkg, Some errNotLocal)
  else
    bind (call_Exists (local pkg)) (fun ex =>
    if negb ex then ret (pkg, Some errLocalMissing)
    else
      let vendorDir := Join (local pkg) "dependencies" in
      bind (ensureLoop vendorDir (Dependencies pkg)) (fun err =>
      ret (pkg, err))).

End Rook.


Arguments local {Config} _.
Arguments Meta {Config} _.
Arguments Contributors {Config} _.
Arguments Website {Config} _.
Arguments Entry {Config} _.
Arguments Output {Config} _.
Arguments Dependencies {Config} _.
Arguments Builds {Config} _.
Arguments Resources {Config} _.
Arguments Package_String {Config} pkg.
Arguments Validate {Config} pkg.
Arguments GetURL {Config} pkg.
Arguments zeroPackage {Config}.
Arguments fetch_dir {Config} _.
Arguments fetch_dep {Config} _.
Arguments world {Config World} _.
Arguments fetched {Config World} _.
Arguments ret {Config World A} a _.
Arguments bind {Config World A B} m k _.
Arguments PackageFromDep {Config} Explode depString.
Arguments ensureLoop {Config World} Explode EnsurePackage vendorDir deps _.
Arguments EnsureDependencies {Config World} Explode Exists Join EnsurePackage pkg _.

(** ** The manifest of [types.Package] *)

Module types.

(** Modelled from the spec: [versioning.DependencyMeta] is declared outside
    the files at hand; section 3 of the specification gives an identity the
    four fields owner, repository, subpath and version, which are the fields
    of [PackageMeta] ([initialise.go] sets [User] and [Repo]). *)
Definition DependencyMeta : Type := PackageMeta.

Section Types.

(** [BuildConfig] and [Runtime] are opaque to this file. *)
Variable BuildConfig : Type.
Variable RuntimeConfig : Type.

(** [types.Package]; [Identity] is the embedded [versioning.DependencyMeta],
    and [Resources] has the fields of [Resource] above. *)
Record Package : Type := {
  Parent : bool;
  Local : string;
  Vendor : string;
  Format : string;
  AllDependencies : list DependencyMeta;
  Identity : DependencyMeta;
  Contributors : list string;
  Website : string;
  Entry : string;
  Output : string;
  Dependencies : list DependencyString;
  Builds : list BuildConfig;
  Runtime : RuntimeConfig;
  Resources : list Resource
}.

End Types.

Arguments Parent {BuildConfig RuntimeConfig} _.
Arguments Local {BuildConfig RuntimeConfig} _.
Arguments Vendor {BuildConfig RuntimeConfig} _.
Arguments Format {BuildConfig RuntimeConfig} _.
Arguments AllDependencies {BuildConfig RuntimeConfig} _.
Arguments Identity {BuildConfig RuntimeConfig} _.
Arguments Contributors {BuildConfig RuntimeConfig} _.
Arguments Website {BuildConfig RuntimeConfig} _.
Arguments Entry {BuildConfig RuntimeConfig} _.
Arguments Output {BuildConfig RuntimeConfig} _.
Arguments Dependencies {BuildConfig RuntimeConfig} _.
Arguments Builds {BuildConfig RuntimeConfig} _.
Arguments Runtime {BuildConfig RuntimeConfig} _.
Arguments Resources {BuildConfig RuntimeConfig} _.

End types.

(** ** The vocabulary of the specification *)

(** [pkg] carries the data of the manifest [m]: the fields that
    [rook.Package] and [types.Package] have in common and that resolution
    and validation read.  [Parent], [Vendor], [Format], [AllDependencies]
    and [Runtime] have no counterpart in [rook.Package]. *)
Definition sameManifest {Config BuildConfig RuntimeConfig : Type}
    (m : types.Package BuildConfig RuntimeConfig) (pkg : Package Config) : Prop :=
  types.Local m = local pkg
  /\ types.Identity m = Meta pkg
  /\ types.Entry m = Entry pkg
  /\ types.Output m = Output pkg
  /\ types.Dependencies m = Dependencies pkg.

Section Vocabulary.

Variable Explode : DependencyString -> PackageMeta * option error.

(** What the manifest vendored for an identity declares as its own
    dependencies; the empty list when it has no manifest. *)
Definition Registry : Type := PackageMeta -> list DependencyString.

Variable registry : Registry.

(** A list of references names the identity [child]. *)
Definition names (refs : list DependencyString) (child : PackageMeta) : Prop :=
  exists ref, In ref refs /\ Explode ref = (child, None).

(** The manifest of [parent] declares [child]. *)
Definition declares (parent child : PackageMeta) : Prop :=
  names (registry parent) child.

(** [parent] declares [child] through one or more manifests. *)
Definition transitivelyDeclares : PackageMeta -> PackageMeta -> Prop :=
  clos_trans PackageMeta declares.

(** [x] is declared by the root's list or, through manifests, by one of the
    identities the list names. *)
Definition reachable (refs : list DependencyString) (x : PackageMeta) : Prop :=
  exists c, names refs c /\ clos_refl_trans PackageMeta declares c x.

(** The root declares exactly [a] and [b], and both transitively declare
    the third identity [c]. *)
Definition diamond (refs : list DependencyString) (a b c : PackageMeta) : Prop :=
  exists refA refB,
    refs = [refA; refB]
    /\ Explode refA = (a, None) /\ Explode refB = (b, None)
    /\ a <> b /\ c <> a /\ c <> b
    /\ transitivelyDeclares a c /\ transitivelyDeclares b c.

(** [a] declares [b] and [b] declares [a]. *)
Definition cycle (a b : PackageMeta) : Prop :=
  declares a b /\ declares b a.

End Vocabulary.

(** The number of fetch calls in a log that are for the identity [x]. *)
Definition fetchCount {Config : Type} (x : PackageMeta) (log : list (Fetch Config)) : nat :=
  length (filter (fun f => PackageMeta_eqb (Meta (fetch_dep f)) x) log).

(** ** A concrete environment, for the examples *)

Module Demo.

(** The text before and after the first [c] of [s]. *)
Fixpoint splitFirst (c : ascii) (s : string) : option (string * string) :=
  match s with
  | EmptyString => None
  | String x rest =>
      if Ascii.eqb x c then Some (EmptyString, rest)
      else match splitFirst c rest with
           | Some (a, b) => Some (String x a, b)
           | None => None
           end
  end.

Fixpoint hasChar (c : ascii) (s : string) : bool :=
  match s with
  | EmptyString => false
  | String x rest => Ascii.eqb x c || hasChar c rest
  end.

(** The segments of a slash-delimited path. *)
Fixpoint segments (fuel : nat) (s : string) : list string :=
  match fuel with
  | O => [s]
  | S fuel' =>
      match splitFirst "/" s with
      | Some (a, b) => a :: segments fuel' b
      | None => [s]
      end
  end.

Definition malformed : error := errors_New "malformed reference".

Definition noMeta : PackageMeta :=
  {| User := ""; Repo := ""; Path := ""; Version := "" |}.

(** Modelled from the spec: [DependencyString.Explode] is declared outside
    the files at hand.  Section 4.1: the grammar is
    [owner/repository[:subpath][@version]]; whitespace is rejected; a
    reference with no owner or no repository, or with a [..] segment, is
    malformed; components left out are empty. *)
Definition Explode (ref : DependencyString) : PackageMeta * option error :=
  let (body, version) :=
    match splitFirst "@" ref with Some p => p | None => (ref, "") end in
  let (repoPart, subpath) :=
    match splitFirst ":" body with Some p => p | None => (body, "") end in
  match splitFirst "/" repoPart with
  | None => (noMeta, Some malformed)
  | Some (owner, repository) =>
      if (owner =? "") || (repository =? "")
         || hasChar " " ref || hasChar "009" ref || hasChar "010" ref
         || hasChar "/" repository
         || existsb (String.eqb "..")
              (owner :: repository :: segments (String.length subpath) subpath)
      then (noMeta, Some malformed)
      else ({| User := owner; Repo := repository;
               Path := subpath; Version := version |}, None)
  end.

(** The disk: the directories that exist. *)
Definition World : Type := list string.

Definition Exists (path : string) (w : World) : bool :=
  existsb (String.eqb path) w.

(** [filepath.Join] on two clean, non-empty elements. *)
Definition Join (a b : string) : string := a ++ "/" ++ b.

(** The repositories the remote host has. *)
Definition remote : list (string * string) :=
  [("a", "A"); ("b", "B"); ("c", "C")].

(** A fetch: a repository of the remote host is cloned into
    [vendorDirectory/owner/repository]; any other fails. *)
Definition EnsurePackage (vendorDir : string) (dep : Package unit) (w : World)
  : World * option error :=
  if existsb (fun r => (fst r =? User (Meta dep)) && (snd r =? Repo (Meta dep))) remote
  then (Join (Join vendorDir (User (Meta dep))) (Repo (Meta dep)) :: w, None)
  else (w, Some (errors_New "repository not found")).

(** [EnsureDependencies] in this environment. *)
Definition resolve (pkg : Package unit)
  : State unit World -> (Package unit * option error) * State unit World :=
  EnsureDependencies Explode Exists Join EnsurePackage pkg.

(** A project in [/work/mode] with the dependency list [refs]. *)
Definition project (refs : list DependencyString) : Package unit :=
  {| local := "/work/mode";
     Meta := {| User := "me"; Repo := "mode"; Path := ""; Version := "" |};
     Contributors := []; Website := "";
     Entry := "gamemode.pwn"; Output := "gamemode.amx";
     Dependencies := refs; Builds := []; Resources := [] |}.

(** The same project as a [types.Package] manifest, with an empty
    [AllDependencies]; [parent] says whether it is the working package. *)
Definition manifest (parent : bool) (refs : list DependencyString)
  : types.Package unit unit :=
  {| types.Parent := parent;
     types.Local := "/work/mode";
     types.Vendor := "/work/mode/dependencies";
     types.Format := "json";
     types.AllDependencies := [];
     types.Identity := {| User := "me"; Repo := "mode"; Path := ""; Version := "" |};
     types.Contributors := []; types.Website := "";
     types.Entry := "gamemode.pwn"; types.Output := "gamemode.amx";
     types.Dependencies := refs; types.Builds := []; types.Runtime := tt;
     types.Resources := [] |}.

(** The disk before resolution: the project directory, no fetch made. *)
Definition start : State unit World :=
  {| world := ["/work/mode"]; fetched := [] |}.

Definition idA : PackageMeta := {| User := "a"; Repo := "A"; Path := ""; Version := "" |}.
Definition idB : PackageMeta := {| User := "b"; Repo := "B"; Path := ""; Version := "" |}.
Definition idC : PackageMeta := {| User := "c"; Repo := "C"; Path := ""; Version := "" |}.

(** The manifests of [a/A] and [b/B] both declare [c/C]. *)
Definition diamondRegistry : Registry :=
  fun x => if PackageMeta_eqb x idA || PackageMeta_eqb x idB then ["c/C"] else [].

(** The manifest of [a/A] declares [b/B], that of [b/B] declares [a/A]. *)
Definition cycleRegistry : Registry :=
  fun x => if PackageMeta_eqb x idA then ["b/B"]
           else if PackageMeta_eqb x idB then ["a/A"] else [].

End Demo.

(** * Properties *)

(** ** Strings and formats *)

Lemma append_nil_r (s : string) : s ++ "" = s.
Proof. induction s as [|c s IH]; simpl; [reflexivity | now rewrite IH]. Qed.

Lemma append_assoc (a b c : string) : (a ++ b) ++ c = a ++ b ++ c.
Proof. induction a as [|x a IH]; simpl; [reflexivity | now rewrite IH]. Qed.

Lemma contains_intro (before sub after : string) :
  contains (before ++ sub ++ after) sub.
Proof. now exists before, after. Qed.

Lemma contains_prefix (s sub after : string) :
  contains s sub -> contains (s ++ after) sub.
Proof.
  intros (b & a & ->). exists b, (a ++ after).
  now rewrite !append_assoc.
Qed.

Lemma contains_suffix (before s sub : string) :
  contains s sub -> contains (before ++ s) sub.
Proof.
  intros (b & a & ->). exists (before ++ b), a.
  now rewrite !append_assoc.
Qed.

(** The format of [Package.String]. *)
Lemma Package_String_text {Config : Type} (pkg : Package Config) :
  Package_String pkg
  = User (Meta pkg) ++ "/" ++ Repo (Meta pkg) ++ ":" ++ Version (Meta pkg).
Proof.
  unfold Package_String. simpl. now rewrite append_nil_r.
Qed.

(** The format of [Package.GetURL]. *)
Lemma GetURL_text {Config : Type} (pkg : Package Config) :
  GetURL pkg = "https://github.com/" ++ User (Meta pkg) ++ "/" ++ Repo (Meta pkg).
Proof.
  unfold GetURL. simpl. now rewrite append_nil_r.
Qed.

(** The text of the error for a reference that does not parse. *)
Lemma invalid_dependency_text (depString : string) (e : error) :
  Error (errors_Errorf "package dependency '%s' is invalid: %v" [depString; Error e])
  = "package dependency '" ++ depString ++ "' is invalid: " ++ Error e.
Proof.
  simpl. now rewrite append_nil_r.
Qed.

(** The text of the error for a fetch that failed. *)
Lemma failed_ensure_text (shown : string) (e : error) :
  Error (errors_Wrapf e "failed to ensure package %s" [shown])
  = "failed to ensure package " ++ shown ++ ": " ++ Error e.
Proof.
  simpl. now rewrite append_nil_r.
Qed.

Lemma PackageMeta_eqb_eq (a b : PackageMeta) :
  PackageMeta_eqb a b = true <-> a = b.
Proof.
  unfold PackageMeta_eqb. destruct a as [u r p v], b as [u' r' p' v']; simpl.
  rewrite !andb_true_iff, !String.eqb_eq. split.
  - intros [[[-> ->] ->] ->]. reflexivity.
  - intros E. injection E as -> -> -> ->. auto.
Qed.

Lemma PackageMeta_eqb_neq (a b : PackageMeta) :
  PackageMeta_eqb a b = false <-> a <> b.
Proof.
  rewrite <- PackageMeta_eqb_eq. destruct (PackageMeta_eqb a b); split; congruence.
Qed.

(** ** [Validate] *)

Section ValidateFacts.

Variable Config : Type.
Implicit Types pkg : Package Config.

Lemma Validate_missing_entry pkg :
  Entry pkg = "" -> Validate pkg = Some errMissingEntry.
Proof.
  intros E. unfold Validate. now rewrite E.
Qed.

Lemma Validate_missing_output pkg :
  Entry pkg <> "" -> Output pkg = "" -> Validate pkg = Some errMissingOutput.
Proof.
  intros NE O. unfold Validate.
  apply String.eqb_neq in NE. now rewrite NE, O.
Qed.

Lemma Validate_same_file pkg :
  Entry pkg <> "" -> Output pkg <> "" -> Entry pkg = Output pkg ->
  Validate pkg = Some errEntryEqualsOutput.
Proof.
  intros NE NO EO. unfold Validate.
  apply String.eqb_neq in NE, NO. apply String.eqb_eq in EO.
  now rewrite NE, NO, EO.
Qed.

Lemma Validate_ok pkg :
  Entry pkg <> "" -> Output pkg <> "" -> Entry pkg <> Output pkg ->
  Validate pkg = None.
Proof.
  intros NE NO EO. unfold Validate.
  apply String.eqb_neq in NE, NO, EO.
  now rewrite NE, NO, EO.
Qed.

(** C7, as amended.  [Validate] fails with the missing-entry error when the
    entry is empty, with the missing-output error when the output is empty
    and the entry is not, with the entry-equals-output error when both are
    set and equal, and succeeds in every other case; the entry
    gamemode.pwn with the output gamemode.amx validates, and the entry
    x.pwn with the output x.pwn fails. *)
Theorem Validate_cases pkg :
  (Entry pkg = "" -> Validate pkg = Some errMissingEntry)
  /\ (Entry pkg <> "" -> Output pkg = "" -> Validate pkg = Some errMissingOutput)
  /\ (Entry pkg <> "" -> Output pkg <> "" -> Entry pkg = Output pkg ->
      Validate pkg = Some errEntryEqualsOutput)
  /\ (Entry pkg <> "" -> Output pkg <> "" -> Entry pkg <> Output pkg ->
      Validate pkg = None)
  /\ (Entry pkg = "gamemode.pwn" -> Output pkg = "gamemode.amx" ->
      Validate pkg = None)
  /\ (Entry pkg = "x.pwn" -> Output pkg = "x.pwn" ->
      Validate pkg = Some errEntryEqualsOutput).
Proof.
  repeat split.
  - apply Validate_missing_entry.
  - apply Validate_missing_output.
  - apply Validate_same_file.
  - apply Validate_ok.
  - intros E O. apply Validate_ok; rewrite ?E, ?O; discriminate.
  - intros E O. apply Validate_same_file; rewrite ?E, ?O;
      [discriminate | discriminate | reflexivity].
Qed.

(** C9.  [Validate] tests the entry first, then the output, then their
    equality: with an empty entry the result is the missing-entry error
    whatever the output is, and the entry-equals-output error comes back
    only for two non-empty, equal fields. *)
Theorem Validate_order pkg :
  (Entry pkg = "" -> Validate pkg = Some errMissingEntry)
  /\ (Entry pkg = "" -> Output pkg = "" -> Validate pkg = Some errMissingEntry)
  /\ (Validate pkg = Some errEntryEqualsOutput ->
      Entry pkg <> "" /\ Output pkg <> "" /\ Entry pkg = Output pkg).
Proof.
  split; [apply Validate_missing_entry|].
  split; [intros E _; now apply Validate_missing_entry|].
  unfold Validate.
  destruct (String.eqb_spec (Entry pkg) "") as [E|E]; [discriminate|].
  destruct (String.eqb_spec (Output pkg) "") as [O|O]; [discriminate|].
  destruct (String.eqb_spec (Entry pkg) (Output pkg)) as [EO|EO]; [|discriminate].
  intros _. auto.
Qed.

End ValidateFacts.

(** ** [EnsureDependencies] *)

Section Resolution.

Variable Config : Type.
Variable World : Type.
Variable Explode : DependencyString -> PackageMeta * option error.
Variable Exists : string -> World -> bool.
Variable Join : string -> string -> string.
Variable EnsurePackage : string -> Package Config -> World -> World * option error.

Implicit Types pkg : Package Config.
Implicit Types s : State Config World.
Implicit Types deps : list DependencyString.

Local Abbreviation run := (EnsureDependencies Explode Exists Join EnsurePackage).
Local Abbreviation loop := (ensureLoop Explode EnsurePackage).
Local Abbreviation parse := (@PackageFromDep Config Explode).

(** The vendor directory of a package. *)
Local Abbreviation vendor pkg := (Join (local pkg) "dependencies").

(** The fetch call the loop makes for a reference. *)
Local Abbreviation call dir :=
  (fun depString => {| fetch_dir := dir; fetch_dep := fst (parse depString) |}).

(** The state after one more fetch call. *)
Local Abbreviation logged s w dir dep :=
  {| world := w;
     fetched := (fetched s ++ [{| fetch_dir := dir; fetch_dep := dep |}])%list |}.

Lemma PackageFromDep_meta (depString : DependencyString) (x : PackageMeta)
    (err : option error) :
  Explode depString = (x, err) ->
  Meta (fst (parse depString)) = x /\ snd (parse depString) = err.
Proof.
  intros E. unfold PackageFromDep. rewrite E. simpl.
  now destruct x.
Qed.

(** *** The loop, one iteration at a time *)

Lemma ensureLoop_parse_error dir depString deps s dep e :
  parse depString = (dep, Some e) ->
  loop dir (depString :: deps) s
  = (Some (errors_Errorf "package dependency '%s' is invalid: %v"
             [depString; Error e]), s).
Proof.
  intros P. simpl. now rewrite P.
Qed.

Lemma ensureLoop_fetch_error dir depString deps s dep w e :
  parse depString = (dep, None) ->
  EnsurePackage dir dep (world s) = (w, Some e) ->
  loop dir (depString :: deps) s
  = (Some (errors_Wrapf e "failed to ensure package %s" [Package_String dep]),
     logged s w dir dep).
Proof.
  intros P F. simpl. rewrite P.
  unfold bind, call_EnsurePackage. now rewrite F.
Qed.

Lemma ensureLoop_next dir depString deps s dep w :
  parse depString = (dep, None) ->
  EnsurePackage dir dep (world s) = (w, None) ->
  loop dir (depString :: deps) s = loop dir deps (logged s w dir dep).
Proof.
  intros P F. simpl. rewrite P.
  unfold bind, call_EnsurePackage. now rewrite F.
Qed.

(** The three ways an iteration can go. *)
Lemma ensureLoop_cons dir depString deps s :
  (exists dep e, parse depString = (dep, Some e))
  \/ (exists dep w e, parse depString = (dep, None)
                      /\ EnsurePackage dir dep (world s) = (w, Some e))
  \/ (exists dep w, parse depString = (dep, None)
                    /\ EnsurePackage dir dep (world s) = (w, None)).
Proof.
  destruct (parse depString) as [dep [e|]] eqn:P.
  - left. now exists dep, e.
  - destruct (EnsurePackage dir dep (world s)) as [w [e|]] eqn:F.
    + right; left. now exists dep, w, e.
    + right; right. now exists dep, w.
Qed.

(** Once the loop has run through [before], it goes on with what follows. *)
Lemma ensureLoop_app dir before deps s s1 :
  loop dir before s = (None, s1) ->
  loop dir (before ++ deps)%list s = loop dir deps s1.
Proof.
  revert s. induction before as [|d before IH]; intros s R.
  - simpl in R. unfold ret in R. now inversion R.
  - destruct (ensureLoop_cons dir d before s)
      as [(dep & e & P) | [(dep & w & e & P & F) | (dep & w & P & F)]].
    + rewrite (ensureLoop_parse_error _ _ _ _ _ _ P) in R. discriminate.
    + rewrite (ensureLoop_fetch_error _ _ _ _ _ _ _ P F) in R. discriminate.
    + rewrite (ensureLoop_next _ _ _ _ _ _ P F) in R.
      change ((d :: before) ++ deps)%list with (d :: (before ++ deps))%list.
      rewrite (ensureLoop_next _ _ _ _ _ _ P F). now apply IH.
Qed.

(** A loop that runs to its end has fetched every declared reference, once
    each and in the order of the list, and every reference parsed. *)
Lemma ensureLoop_success dir deps s s' :
  loop dir deps s = (None, s') ->
  fetched s' = (fetched s ++ map (call dir) deps)%list
  /\ (forall d, In d deps -> snd (parse d) = None).
Proof.
  revert s. induction deps as [|d deps IH]; intros s R.
  - simpl in R. unfold ret in R. inversion R; subst.
    split; [now rewrite app_nil_r | intros d []].
  - destruct (ensureLoop_cons dir d deps s)
      as [(dep & e & P) | [(dep & w & e & P & F) | (dep & w & P & F)]].
    + rewrite (ensureLoop_parse_error _ _ _ _ _ _ P) in R. discriminate.
    + rewrite (ensureLoop_fetch_error _ _ _ _ _ _ _ P F) in R. discriminate.
    + rewrite (ensureLoop_next _ _ _ _ _ _ P F) in R.
      destruct (IH _ R) as [L A]. split.
      * rewrite L. simpl. rewrite P. simpl. now rewrite <- app_assoc.
      * intros d' [<- | I]; [now rewrite P | now apply A].
Qed.

(** Whatever the outcome, the log grows by the calls for a prefix of the
    declared list: nothing else is ever fetched. *)
Lemma ensureLoop_log dir deps s :
  exists n, fetched (snd (loop dir deps s))
            = (fetched s ++ map (call dir) (firstn n deps))%list.
Proof.
  revert s. induction deps as [|d deps IH]; intros s.
  - exists 0. simpl. now rewrite app_nil_r.
  - destruct (ensureLoop_cons dir d deps s)
      as [(dep & e & P) | [(dep & w & e & P & F) | (dep & w & P & F)]].
    + exists 0. rewrite (ensureLoop_parse_error _ _ _ _ _ _ P). simpl.
      now rewrite app_nil_r.
    + exists 1. rewrite (ensureLoop_fetch_error _ _ _ _ _ _ _ P F). simpl.
      now rewrite P.
    + destruct (IH (logged s w dir dep)) as [n L]. exists (S n).
      rewrite (ensureLoop_next _ _ _ _ _ _ P F), L. simpl.
      rewrite P. simpl. now rewrite <- app_assoc.
Qed.

(** An error of the loop is the error of a reference that does not parse or
    of a fetch that failed. *)
Definition loopCause (dir : string) deps (e : error) : Prop :=
  (exists d pe,
      In d deps /\ snd (parse d) = Some pe
      /\ e = errors_Errorf "package dependency '%s' is invalid: %v" [d; Error pe])
  \/ (exists d w fe,
         In d deps /\ snd (parse d) = None
         /\ snd (EnsurePackage dir (fst (parse d)) w) = Some fe
         /\ e = errors_Wrapf fe "failed to ensure package %s"
                  [Package_String (fst (parse d))]).

Lemma ensureLoop_error dir deps s e s' :
  loop dir deps s = (Some e, s') -> loopCause dir deps e.
Proof.
  revert s. induction deps as [|d deps IH]; intros s R.
  - simpl in R. discriminate.
  - destruct (ensureLoop_cons dir d deps s)
      as [(dep & pe & P) | [(dep & w & fe & P & F) | (dep & w & P & F)]].
    + rewrite (ensureLoop_parse_error _ _ _ _ _ _ P) in R.
      inversion R; subst. left. exists d, pe.
      rewrite P. simpl. auto.
    + rewrite (ensureLoop_fetch_error _ _ _ _ _ _ _ P F) in R.
      inversion R; subst. right. exists d, (world s), fe.
      rewrite P. simpl. rewrite F. simpl. auto.
    + rewrite (ensureLoop_next _ _ _ _ _ _ P F) in R.
      destruct (IH _ R) as [(d' & pe & I & Q & ->) | (d' & w' & fe & I & Q & G & ->)].
      * left. exists d', pe. simpl. auto.
      * right. exists d', w', fe. simpl. auto.
Qed.

(** When every reference parses and no fetch fails, the loop runs to its end. *)
Lemma ensureLoop_runs dir deps s :
  (forall d, In d deps -> snd (parse d) = None) ->
  (forall d w, In d deps -> snd (EnsurePackage dir (fst (parse d)) w) = None) ->
  fst (loop dir deps s) = None.
Proof.
  intros A F. destruct (loop dir deps s) as [[e|] s'] eqn:R; [|reflexivity].
  exfalso. destruct (ensureLoop_error _ _ _ _ _ R)
    as [(d & pe & I & Q & _) | (d & w & fe & I & _ & G & _)].
  - rewrite (A d I) in Q. discriminate.
  - rewrite (F d w I) in G. discriminate.
Qed.

(** *** The method as a whole *)

Lemma EnsureDependencies_not_local pkg s :
  local pkg = "" -> run pkg s = ((pkg, Some errNotLocal), s).
Proof.
  intros L. unfold EnsureDependencies. now rewrite L.
Qed.

Lemma EnsureDependencies_local_missing pkg s :
  local pkg <> "" -> Exists (local pkg) (world s) = false ->
  run pkg s = ((pkg, Some errLocalMissing), s).
Proof.
  intros L X. unfold EnsureDependencies, bind, call_Exists.
  apply String.eqb_neq in L. now rewrite L, X.
Qed.

(** With a local path that exists, the method is its loop. *)
Lemma EnsureDependencies_local pkg s :
  local pkg <> "" -> Exists (local pkg) (world s) = true ->
  run pkg s
  = ((pkg, fst (loop (vendor pkg) (Dependencies pkg) s)),
     snd (loop (vendor pkg) (Dependencies pkg) s)).
Proof.
  intros L X. unfold EnsureDependencies, bind, call_Exists, ret.
  apply String.eqb_neq in L. rewrite L, X. simpl.
  now destruct (loop (vendor pkg) (Dependencies pkg) s).
Qed.

(** A call that succeeds had a local path that exists, and ran its loop to
    the end. *)
Lemma EnsureDependencies_success pkg s pkg' s' :
  run pkg s = ((pkg', None), s') ->
  pkg' = pkg
  /\ local pkg <> "" /\ Exists (local pkg) (world s) = true
  /\ loop (vendor pkg) (Dependencies pkg) s = (None, s').
Proof.
  intros R. destruct (String.eqb_spec (local pkg) "") as [L|L].
  - rewrite EnsureDependencies_not_local in R by assumption. discriminate.
  - destruct (Exists (local pkg) (world s)) eqn:X.
    + rewrite EnsureDependencies_local in R by assumption.
      destruct (loop (vendor pkg) (Dependencies pkg) s) as [err s1].
      simpl in R. inversion R; subst. auto.
    + rewrite EnsureDependencies_local_missing in R by assumption. discriminate.
Qed.

(** An error of the method is one of its two precondition errors or an
    error of its loop. *)
Definition resolutionCause pkg (e : error) : Prop :=
  e = errNotLocal \/ e = errLocalMissing
  \/ loopCause (vendor pkg) (Dependencies pkg) e.

Lemma EnsureDependencies_error pkg s pkg' e s' :
  run pkg s = ((pkg', Some e), s') -> resolutionCause pkg e.
Proof.
  intros R. destruct (String.eqb_spec (local pkg) "") as [L|L].
  - rewrite EnsureDependencies_not_local in R by assumption.
    inversion R. now left.
  - destruct (Exists (local pkg) (world s)) eqn:X.
    + rewrite EnsureDependencies_local in R by assumption.
      destruct (loop (vendor pkg) (Dependencies pkg) s) as [err s1] eqn:Q.
      simpl in R. inversion R; subst.
      right; right. eapply ensureLoop_error, Q.
    + rewrite EnsureDependencies_local_missing in R by assumption.
      inversion R. right. now left.
Qed.

(** *** The claims about resolution *)

(** C4, as amended.  [EnsureDependencies] needs a local path that is set
    and that [util.Exists] finds: for a package with no local path it
    returns the not-a-local-package error, for one whose path is not found
    the path-does-not-exist error, in both cases at once, the state left as
    it was: no fetch call is made. *)
Theorem EnsureDependencies_requires_local pkg s :
  (local pkg = "" ->
   EnsureDependencies Explode Exists Join EnsurePackage pkg s
   = ((pkg, Some errNotLocal), s))
  /\ (local pkg <> "" -> Exists (local pkg) (world s) = false ->
      EnsureDependencies Explode Exists Join EnsurePackage pkg s
      = ((pkg, Some errLocalMissing), s)).
Proof.
  split.
  - apply EnsureDependencies_not_local.
  - apply EnsureDependencies_local_missing.
Qed.

(** C10.  For a package whose local path is set and exists and whose
    dependency list is empty, [EnsureDependencies] returns nil and leaves
    the state as it was: no fetch call at all. *)
Theorem EnsureDependencies_no_dependencies pkg s :
  local pkg <> "" -> Exists (local pkg) (world s) = true ->
  Dependencies pkg = [] ->
  EnsureDependencies Explode Exists Join EnsurePackage pkg s
  = ((pkg, None), s).
Proof.
  intros L X D. rewrite EnsureDependencies_local by assumption.
  now rewrite D.
Qed.

(** C8.  [EnsureDependencies] never writes a field of its receiver: when the
    call returns, with or without an error, the receiver copy is the
    package the call was made on, and so is the caller's value, which Go
    passed by value; its [Dependencies] in particular are the same list. *)
Theorem EnsureDependencies_receiver_unchanged pkg s :
  fst (fst (EnsureDependencies Explode Exists Join EnsurePackage pkg s)) = pkg
  /\ Dependencies
       (fst (fst (EnsureDependencies Explode Exists Join EnsurePackage pkg s)))
     = Dependencies pkg.
Proof.
  assert (R : fst (fst (run pkg s)) = pkg).
  { destruct (String.eqb_spec (local pkg) "") as [L|L].
    - now rewrite EnsureDependencies_not_local.
    - destruct (Exists (local pkg) (world s)) eqn:X.
      + now rewrite EnsureDependencies_local.
      + now rewrite EnsureDependencies_local_missing. }
  split; [exact R | now rewrite R].
Qed.

(** C3.  With three declared dependencies of which the first is fetched and
    the fetch of the second fails, [EnsureDependencies] returns an error
    after two fetch calls, none for the third, and the text of the error
    is that of the failing fetch behind the display string of the failing
    package, so it contains its owner/repository. *)
Theorem EnsureDependencies_second_fetch_fails pkg s d1 d2 d3 dep1 dep2 w1 w2 e :
  local pkg <> "" -> Exists (local pkg) (world s) = true ->
  Dependencies pkg = [d1; d2; d3] ->
  parse d1 = (dep1, None) ->
  parse d2 = (dep2, None) ->
  EnsurePackage (vendor pkg) dep1 (world s) = (w1, None) ->
  EnsurePackage (vendor pkg) dep2 w1 = (w2, Some e) ->
  exists err,
    EnsureDependencies Explode Exists Join EnsurePackage pkg s
    = ((pkg, Some err),
       {| world := w2;
          fetched := (fetched s
                      ++ [ {| fetch_dir := vendor pkg; fetch_dep := dep1 |};
                           {| fetch_dir := vendor pkg; fetch_dep := dep2 |} ])%list |})
    /\ Error err
       = "failed to ensure package " ++ Package_String dep2 ++ ": " ++ Error e
    /\ contains (Error err) (User (Meta dep2) ++ "/" ++ Repo (Meta dep2)).
Proof.
  intros L X D P1 P2 F1 F2.
  exists (errors_Wrapf e "failed to ensure package %s" [Package_String dep2]).
  split; [|split].
  - rewrite EnsureDependencies_local, D by assumption.
    rewrite (ensureLoop_next _ _ _ _ _ _ P1 F1).
    rewrite (ensureLoop_fetch_error (vendor pkg) d2 [d3]
               (logged s w1 (vendor pkg) dep1) dep2 w2 e P2 F2).
    simpl. now rewrite <- app_assoc.
  - apply failed_ensure_text.
  - rewrite failed_ensure_text, Package_String_text.
    apply contains_suffix.
    exists "", (":" ++ Version (Meta dep2) ++ ": " ++ Error e).
    now rewrite !append_assoc.
Qed.

(** C6.  When the loop has come through the references before [d] and [d]
    does not parse, [EnsureDependencies] returns at once: its error names
    [d] in its text, in front of the text of the parser's error, and the
    state is the one the loop had reached, so neither [d] nor any later
    reference is fetched. *)
Theorem EnsureDependencies_parse_failure pkg s before d after s1 e :
  local pkg <> "" -> Exists (local pkg) (world s) = true ->
  Dependencies pkg = (before ++ d :: after)%list ->
  ensureLoop Explode EnsurePackage (vendor pkg) before s = (None, s1) ->
  snd (parse d) = Some e ->
  exists err,
    EnsureDependencies Explode Exists Join EnsurePackage pkg s
    = ((pkg, Some err), s1)
    /\ Error err = "package dependency '" ++ d ++ "' is invalid: " ++ Error e
    /\ contains (Error err) d
    /\ fetched s1 = (fetched s ++ map (call (vendor pkg)) before)%list.
Proof.
  intros L X D R P.
  exists (errors_Errorf "package dependency '%s' is invalid: %v" [d; Error e]).
  destruct (parse d) as [dep pe] eqn:Q. simpl in P. subst pe.
  split; [|split; [|split]].
  - rewrite EnsureDependencies_local, D by assumption.
    rewrite (ensureLoop_app _ _ _ _ _ R).
    now rewrite (ensureLoop_parse_error _ _ _ _ _ _ Q).
  - apply invalid_dependency_text.
  - rewrite invalid_dependency_text. apply contains_intro.
  - now apply ensureLoop_success in R.
Qed.

(** C2, as amended.  When [EnsureDependencies] succeeds, the fetch calls it
    has made are one for each reference of the package's own dependency
    list, in the order of the list, all into the vendor directory of the
    package, every reference having parsed; the package is left as it
    was.  No manifest of a dependency is read and no closure is stored. *)
Theorem EnsureDependencies_success_fetches_declared pkg s pkg' s' :
  EnsureDependencies Explode Exists Join EnsurePackage pkg s
  = ((pkg', None), s') ->
  pkg' = pkg
  /\ fetched s' = (fetched s ++ map (call (vendor pkg)) (Dependencies pkg))%list
  /\ (forall d, In d (Dependencies pkg) -> snd (parse d) = None).
Proof.
  intros R. apply EnsureDependencies_success in R as (-> & _ & _ & R).
  apply ensureLoop_success in R as [Lg A]. auto.
Qed.

(** C1, as amended.  On a diamond (the root declares [a] and [b], which both
    transitively declare [c]) a successful [EnsureDependencies] has made
    two fetch calls, one for [a] and then one for [b], and none for the
    shared identity [c]; the package is left as it was. *)
Theorem EnsureDependencies_diamond (registry : Registry) pkg a b c s pkg' s' :
  diamond Explode registry (Dependencies pkg) a b c ->
  EnsureDependencies Explode Exists Join EnsurePackage pkg s
  = ((pkg', None), s') ->
  exists fa fb,
    fetched s' = (fetched s ++ [fa; fb])%list
    /\ Meta (fetch_dep fa) = a /\ Meta (fetch_dep fb) = b
    /\ fetchCount a [fa; fb] = 1
    /\ fetchCount b [fa; fb] = 1
    /\ fetchCount c [fa; fb] = 0
    /\ pkg' = pkg.
Proof.
  intros (refA & refB & D & EA & EB & AB & CA & CB & _ & _) R.
  apply EnsureDependencies_success in R as (-> & _ & _ & R).
  apply ensureLoop_success in R as [Lg _]. rewrite D in Lg. simpl in Lg.
  destruct (PackageFromDep_meta _ _ _ EA) as [MA _].
  destruct (PackageFromDep_meta _ _ _ EB) as [MB _].
  eexists _, _. split; [exact Lg|].
  unfold fetchCount. simpl. rewrite MA, MB.
  assert (Eaa : PackageMeta_eqb a a = true) by now apply PackageMeta_eqb_eq.
  assert (Ebb : PackageMeta_eqb b b = true) by now apply PackageMeta_eqb_eq.
  assert (Eab : PackageMeta_eqb a b = false) by now apply PackageMeta_eqb_neq.
  assert (Eba : PackageMeta_eqb b a = false)
    by (apply PackageMeta_eqb_neq; congruence).
  assert (Eac : PackageMeta_eqb a c = false)
    by (apply PackageMeta_eqb_neq; congruence).
  assert (Ebc : PackageMeta_eqb b c = false)
    by (apply PackageMeta_eqb_neq; congruence).
  rewrite Eaa, Ebb, Eab, Eba, Eac, Ebc. simpl. repeat split.
Qed.

(** C5.  On a root that declares [a], where [a] declares [b] and [b]
    declares [a], [EnsureDependencies] returns (it is one pass over the
    declared list), and an error it returns is a precondition error, the
    error of a declared reference that does not parse or of a fetch that
    failed, never one for the cycle: with a local path that exists,
    references that parse and fetches that succeed, the result is nil
    after one fetch call for each declared reference. *)
Theorem EnsureDependencies_cycle (registry : Registry) pkg a b s :
  cycle Explode registry a b ->
  names Explode (Dependencies pkg) a ->
  exists pkg' err s',
    EnsureDependencies Explode Exists Join EnsurePackage pkg s
    = ((pkg', err), s')
    /\ (forall e, err = Some e -> resolutionCause pkg e)
    /\ (local pkg <> "" -> Exists (local pkg) (world s) = true ->
        (forall d, In d (Dependencies pkg) -> snd (parse d) = None) ->
        (forall d w, In d (Dependencies pkg) ->
                     snd (EnsurePackage (vendor pkg) (fst (parse d)) w) = None) ->
        err = None
        /\ fetched s'
           = (fetched s ++ map (call (vendor pkg)) (Dependencies pkg))%list).
Proof.
  intros _ _. destruct (run pkg s) as [[pkg' err] s'] eqn:R.
  exists pkg', err, s'. split; [reflexivity|]. split.
  - intros e ->. eapply EnsureDependencies_error, R.
  - intros L X A F.
    rewrite EnsureDependencies_local in R by assumption.
    pose proof (ensureLoop_runs (vendor pkg) (Dependencies pkg) s A F) as N.
    destruct (loop (vendor pkg) (Dependencies pkg) s) as [err1 s1] eqn:Q.
    simpl in R, N. inversion R; subst. split; [reflexivity|].
    now apply ensureLoop_success in Q.
Qed.

End Resolution.

(** * The claims on concrete packages *)

Section Examples.

Local Abbreviation three := (Demo.project ["a/A"; "x/B"; "c/C"]).
Local Abbreviation vendorDir := "/work/mode/dependencies".
Local Abbreviation depOf x :=
  {| local := ""; Meta := x; Contributors := []; Website := ""; Entry := "";
     Output := ""; Dependencies := []; Builds := @nil unit; Resources := [] |}.
Local Abbreviation fetchOf x := {| fetch_dir := vendorDir; fetch_dep := depOf x |}.

(** C3 on a project whose second dependency, x/B, is not on the remote
    host: a/A is fetched, x/B fails, c/C is never asked for. *)
Lemma EnsureDependencies_second_fetch_fails_witness :
  exists err,
    Demo.resolve three Demo.start
    = ((three, Some err),
       {| world := ["/work/mode/dependencies/a/A"; "/work/mode"];
          fetched := [fetchOf Demo.idA;
                      fetchOf {| User := "x"; Repo := "B"; Path := ""; Version := "" |}] |})
    /\ Error err = "failed to ensure package x/B:: repository not found"
    /\ contains (Error err) "x/B".
Proof.
  apply (EnsureDependencies_second_fetch_fails unit Demo.World Demo.Explode
           Demo.Exists Demo.Join Demo.EnsurePackage three Demo.start
           "a/A" "x/B" "c/C" (depOf Demo.idA)
           (depOf {| User := "x"; Repo := "B"; Path := ""; Version := "" |})
           ["/work/mode/dependencies/a/A"; "/work/mode"]
           ["/work/mode/dependencies/a/A"; "/work/mode"]
           (errors_New "repository not found")).
  - discriminate.
  - reflexivity.
  - reflexivity.
  - reflexivity.
  - reflexivity.
  - reflexivity.
  - reflexivity.
Defined.

Local Abbreviation two := (Demo.project ["a/A"; "b/B"]).
Local Abbreviation afterA :=
  {| world := ["/work/mode/dependencies/a/A"; "/work/mode"];
     fetched := [fetchOf Demo.idA] |}.
Local Abbreviation afterAB :=
  {| world := ["/work/mode/dependencies/b/B"; "/work/mode/dependencies/a/A";
               "/work/mode"];
     fetched := [fetchOf Demo.idA; fetchOf Demo.idB] |}.
Local Abbreviation demo thm :=
  (thm unit Demo.World Demo.Explode Demo.Exists Demo.Join Demo.EnsurePackage).

(** C6 on a project whose second reference, xB, has no owner: a/A is
    fetched, the error names xB, c/C is never asked for. *)
Lemma EnsureDependencies_parse_failure_witness :
  exists err,
    Demo.resolve (Demo.project ["a/A"; "xB"; "c/C"]) Demo.start
    = ((Demo.project ["a/A"; "xB"; "c/C"], Some err), afterA)
    /\ Error err = "package dependency 'xB' is invalid: malformed reference"
    /\ contains (Error err) "xB"
    /\ fetched afterA = [fetchOf Demo.idA].
Proof.
  apply (demo EnsureDependencies_parse_failure
           (Demo.project ["a/A"; "xB"; "c/C"]) Demo.start
           ["a/A"] "xB" ["c/C"] afterA Demo.malformed).
  - discriminate.
  - reflexivity.
  - reflexivity.
  - reflexivity.
  - reflexivity.
Defined.

(** C10 on a project with no dependency. *)
Lemma EnsureDependencies_no_dependencies_witness :
  Demo.resolve (Demo.project []) Demo.start
  = ((Demo.project [], None), Demo.start).
Proof.
  apply (demo EnsureDependencies_no_dependencies (Demo.project []) Demo.start).
  - discriminate.
  - reflexivity.
  - reflexivity.
Defined.

(** C2, as amended, on a project that declares a/A and b/B. *)
Lemma EnsureDependencies_success_fetches_declared_witness :
  Demo.resolve two Demo.start = ((two, None), afterAB)
  /\ (two = two
      /\ fetched afterAB = [fetchOf Demo.idA; fetchOf Demo.idB]
      /\ (forall d, In d ["a/A"; "b/B"] ->
                    snd (@PackageFromDep unit Demo.Explode d) = None)).
Proof.
  split; [reflexivity|].
  apply (demo EnsureDependencies_success_fetches_declared
           two Demo.start two afterAB).
  reflexivity.
Defined.

Lemma diamond_demo :
  diamond Demo.Explode Demo.diamondRegistry ["a/A"; "b/B"]
    Demo.idA Demo.idB Demo.idC.
Proof.
  exists "a/A", "b/B". repeat split; try discriminate.
  - apply t_step. exists "c/C". split; [now left | reflexivity].
  - apply t_step. exists "c/C". split; [now left | reflexivity].
Defined.

(** C1, as amended, on the diamond of a/A and b/B over c/C. *)
Lemma EnsureDependencies_diamond_witness :
  diamond Demo.Explode Demo.diamondRegistry (Dependencies two)
    Demo.idA Demo.idB Demo.idC
  /\ Demo.resolve two Demo.start = ((two, None), afterAB)
  /\ exists fa fb,
       fetched afterAB = [fa; fb]
       /\ Meta (fetch_dep fa) = Demo.idA /\ Meta (fetch_dep fb) = Demo.idB
       /\ fetchCount Demo.idA [fa; fb] = 1
       /\ fetchCount Demo.idB [fa; fb] = 1
       /\ fetchCount Demo.idC [fa; fb] = 0
       /\ two = two.
Proof.
  split; [exact diamond_demo|]. split; [reflexivity|].
  apply (demo EnsureDependencies_diamond Demo.diamondRegistry
           two Demo.idA Demo.idB Demo.idC Demo.start two afterAB).
  - exact diamond_demo.
  - reflexivity.
Defined.

Lemma cycle_demo : cycle Demo.Explode Demo.cycleRegistry Demo.idA Demo.idB.
Proof.
  split.
  - exists "b/B". split; [now left | reflexivity].
  - exists "a/A". split; [now left | reflexivity].
Defined.

(** C5 on a project that declares a/A, where a/A declares b/B and b/B
    declares a/A: the call returns nil after the one fetch of a/A. *)
Lemma EnsureDependencies_cycle_witness :
  cycle Demo.Explode Demo.cycleRegistry Demo.idA Demo.idB
  /\ names Demo.Explode (Dependencies (Demo.project ["a/A"])) Demo.idA
  /\ exists pkg' err s',
       Demo.resolve (Demo.project ["a/A"]) Demo.start = ((pkg', err), s')
       /\ err = None
       /\ fetched s' = [fetchOf Demo.idA].
Proof.
  split; [exact cycle_demo|].
  assert (N : names Demo.Explode (Dependencies (Demo.project ["a/A"])) Demo.idA).
  { exists "a/A". split; [now left | reflexivity]. }
  split; [exact N|].
  destruct (demo EnsureDependencies_cycle Demo.cycleRegistry
              (Demo.project ["a/A"]) Demo.idA Demo.idB Demo.start cycle_demo N)
    as (pkg' & err & s' & R & _ & H).
  exists pkg', err, s'. split; [exact R|].
  apply H.
  - discriminate.
  - reflexivity.
  - intros d [<- | []]. reflexivity.
  - intros d w [<- | []]. reflexivity.
Defined.

(** C4, as amended, on the zero package, which has no local path, and on a
    project whose directory is not on the disk. *)
Lemma EnsureDependencies_requires_local_witness :
  Demo.resolve zeroPackage Demo.start
  = ((zeroPackage, Some errNotLocal), Demo.start)
  /\ Demo.resolve two {| world := []; fetched := [] |}
     = ((two, Some errLocalMissing), {| world := []; fetched := [] |}).
Proof.
  split.
  - apply (proj1 (demo EnsureDependencies_requires_local zeroPackage Demo.start)).
    reflexivity.
  - apply (proj2 (demo EnsureDependencies_requires_local two
                    {| world := []; fetched := [] |})).
    + discriminate.
    + reflexivity.
Defined.

(** C8 on a call that fails half way. *)
Lemma EnsureDependencies_receiver_unchanged_witness :
  fst (fst (Demo.resolve three Demo.start)) = three
  /\ Dependencies (fst (fst (Demo.resolve three Demo.start)))
     = ["a/A"; "x/B"; "c/C"].
Proof.
  exact (demo EnsureDependencies_receiver_unchanged three Demo.start).
Defined.

(** C7, as amended, on a project with the entry gamemode.pwn and the output
    gamemode.amx, and on the zero package. *)
Lemma Validate_cases_witness :
  Validate (Demo.project []) = None
  /\ Validate (@zeroPackage unit) = Some errMissingEntry.
Proof.
  split.
  - apply (Validate_cases unit (Demo.project [])); reflexivity.
  - apply (Validate_cases unit zeroPackage). reflexivity.
Defined.

(** C9 on the zero package: entry and output are both empty, and the error
    is the missing-entry one. *)
Lemma Validate_order_witness :
  Entry (@zeroPackage unit) = "" /\ Output (@zeroPackage unit) = ""
  /\ Validate (@zeroPackage unit) = Some errMissingEntry.
Proof.
  split; [reflexivity|]. split; [reflexivity|].
  apply (Validate_order unit zeroPackage); reflexivity.
Defined.

(** *** Where the claims as stated fail *)

(** C1 as stated fails.  The project declares a/A and b/B, whose manifests
    both declare c/C; resolution succeeds, and the number of fetch calls
    for c/C is 0, not 1. *)
Lemma diamond_shared_identity_not_fetched :
  diamond Demo.Explode Demo.diamondRegistry (Dependencies two)
    Demo.idA Demo.idB Demo.idC
  /\ Demo.resolve two Demo.start = ((two, None), afterAB)
  /\ fetchCount Demo.idC (fetched afterAB) = 0
  /\ fetchCount Demo.idC (fetched afterAB) <> 1.
Proof.
  split; [exact diamond_demo|]. split; [reflexivity|].
  split; [reflexivity | discriminate].
Qed.

(** C2 as stated fails.  The working package declares a/A, whose manifest
    declares c/C; resolution succeeds and hands back the package as it
    was, with the one fetch of a/A in the log; both a/A and c/C are
    reachable, and neither is in the [AllDependencies] of the manifest,
    which the call had no way to write. *)
Lemma closure_not_stored :
  sameManifest (Demo.manifest true ["a/A"]) (Demo.project ["a/A"])
  /\ types.Parent (Demo.manifest true ["a/A"]) = true
  /\ Demo.resolve (Demo.project ["a/A"]) Demo.start
     = ((Demo.project ["a/A"], None), afterA)
  /\ reachable Demo.Explode Demo.diamondRegistry
       (types.Dependencies (Demo.manifest true ["a/A"])) Demo.idA
  /\ reachable Demo.Explode Demo.diamondRegistry
       (types.Dependencies (Demo.manifest true ["a/A"])) Demo.idC
  /\ ~ In Demo.idA (types.AllDependencies (Demo.manifest true ["a/A"]))
  /\ ~ In Demo.idC (types.AllDependencies (Demo.manifest true ["a/A"]))
  /\ fetchCount Demo.idC (fetched afterA) = 0.
Proof.
  assert (N : names Demo.Explode ["a/A"] Demo.idA).
  { exists "a/A". split; [now left | reflexivity]. }
  repeat split; try reflexivity.
  - exists Demo.idA. split; [exact N | apply rt_refl].
  - exists Demo.idA. split; [exact N|]. apply rt_step.
    exists "c/C". split; [now left | reflexivity].
  - intros [].
  - intros [].
Qed.

(** C4 as stated fails.  A manifest that is not the working package
    ([Parent] is false), with a local path that exists, is resolved with
    no error. *)
Lemma not_parent_still_resolves :
  sameManifest (Demo.manifest false []) (Demo.project [])
  /\ types.Parent (Demo.manifest false []) = false
  /\ Demo.resolve (Demo.project []) Demo.start
     = ((Demo.project [], None), Demo.start).
Proof.
  repeat split; reflexivity.
Qed.

(** C7 as stated fails.  The output of the zero package is empty, and
    [Validate] returns the missing-entry error, not the missing-output
    one. *)
Lemma empty_output_missing_entry :
  Output (@zeroPackage unit) = ""
  /\ Validate (@zeroPackage unit) = Some errMissingEntry
  /\ Validate (@zeroPackage unit) <> Some errMissingOutput.
Proof.
  split; [reflexivity|]. split; [reflexivity | discriminate].
Qed.

End Examples.

(** * Further properties of [rook.go] *)

From Stdlib Require Import PeanoNat.

Section ValidateMore.

Variable Config : Type.
Implicit Types pkg : Package Config.

(** X1.  [Validate] accepts a package exactly when its entry and its output
    are both set and differ. *)
Theorem Validate_accepts_iff pkg :
  Validate pkg = None
  <-> Entry pkg <> "" /\ Output pkg <> "" /\ Entry pkg <> Output pkg.
Proof.
  unfold Validate.
  destruct (String.eqb_spec (Entry pkg) "") as [E|E];
    [split; [discriminate | intros (N & _); contradiction]|].
  destruct (String.eqb_spec (Output pkg) "") as [O|O];
    [split; [discriminate | intros (_ & N & _); contradiction]|].
  destruct (String.eqb_spec (Entry pkg) (Output pkg)) as [EO|EO];
    [split; [discriminate | intros (_ & _ & N); contradiction]|].
  split; auto.
Qed.

(** X2.  The display string of a package is owner/repository:version and
    its URL is the GitHub address of owner/repository: neither shows the
    subpath or the local path, and the URL in front of a colon and the
    version is the display string behind the address of the host. *)
Theorem Package_String_and_GetURL pkg :
  Package_String pkg
  = User (Meta pkg) ++ "/" ++ Repo (Meta pkg) ++ ":" ++ Version (Meta pkg)
  /\ GetURL pkg
     = "https://github.com/" ++ User (Meta pkg) ++ "/" ++ Repo (Meta pkg)
  /\ GetURL pkg ++ ":" ++ Version (Meta pkg)
     = "https://github.com/" ++ Package_String pkg.
Proof.
  rewrite Package_String_text, GetURL_text.
  split; [reflexivity|]. split; [reflexivity|].
  now rewrite !append_assoc.
Qed.

End ValidateMore.

Section ResolutionMore.

Variable Config : Type.
Variable World : Type.
Variable Explode : DependencyString -> PackageMeta * option error.
Variable Exists : string -> World -> bool.
Variable Join : string -> string -> string.
Variable EnsurePackage : string -> Package Config -> World -> World * option error.

Implicit Types pkg : Package Config.
Implicit Types s : State Config World.
Implicit Types deps : list DependencyString.

Local Abbreviation run := (EnsureDependencies Explode Exists Join EnsurePackage).
Local Abbreviation loop := (ensureLoop Explode EnsurePackage).
Local Abbreviation parse := (@PackageFromDep Config Explode).
Local Abbreviation vendor pkg := (Join (local pkg) "dependencies").
Local Abbreviation call dir :=
  (fun depString => {| fetch_dir := dir; fetch_dep := fst (parse depString) |}).

(** X3.  A package made by [PackageFromDep] is never accepted by
    [Validate]: it has no entry, whatever the reference. *)
Theorem PackageFromDep_never_validates (depString : DependencyString) :
  Validate (fst (@PackageFromDep Config Explode depString)) = Some errMissingEntry.
Proof.
  unfold PackageFromDep. now destruct (Explode depString).
Qed.

(** X4.  [EnsureDependencies] on a package made by [PackageFromDep] fails
    with the not-a-local-package error and fetches nothing: such a package
    has no local path, so the dependencies of a dependency are out of the
    method's reach. *)
Theorem PackageFromDep_not_resolvable (depString : DependencyString) s :
  EnsureDependencies Explode Exists Join EnsurePackage
    (fst (@PackageFromDep Config Explode depString)) s
  = ((fst (@PackageFromDep Config Explode depString), Some errNotLocal), s).
Proof.
  apply EnsureDependencies_not_local.
  unfold PackageFromDep. now destruct (Explode depString).
Qed.

(** X5.  Whatever the outcome, the fetch calls of one [EnsureDependencies]
    are those for a prefix of the declared list, in the order of the list
    and all into the vendor directory of the package: nothing undeclared is
    fetched, nothing is fetched out of order, and there are never more
    calls than declared references. *)
Theorem EnsureDependencies_fetches_prefix pkg s :
  exists n,
    n <= length (Dependencies pkg)
    /\ fetched (snd (EnsureDependencies Explode Exists Join EnsurePackage pkg s))
       = (fetched s
          ++ map (call (vendor pkg)) (firstn n (Dependencies pkg)))%list.
Proof.
  destruct (String.eqb_spec (local pkg) "") as [L|L].
  - exists 0. rewrite EnsureDependencies_not_local by assumption.
    split; [apply Nat.le_0_l | simpl; now rewrite app_nil_r].
  - destruct (Exists (local pkg) (world s)) eqn:X.
    + rewrite EnsureDependencies_local by assumption. simpl.
      destruct (ensureLoop_log Config World Explode EnsurePackage
                  (vendor pkg) (Dependencies pkg) s) as [n Lg].
      exists (Nat.min n (length (Dependencies pkg))). split.
      * apply Nat.le_min_r.
      * rewrite Lg. f_equal. f_equal.
        destruct (Nat.le_ge_cases n (length (Dependencies pkg))) as [H|H].
        -- now rewrite Nat.min_l.
        -- rewrite Nat.min_r by assumption.
           now rewrite !firstn_all2.
    + exists 0. rewrite EnsureDependencies_local_missing by assumption.
      split; [apply Nat.le_0_l | simpl; now rewrite app_nil_r].
Qed.

Lemma fetchCount_app (x : PackageMeta) (l1 l2 : list (Fetch Config)) :
  fetchCount x (l1 ++ l2)%list = fetchCount x l1 + fetchCount x l2.
Proof.
  unfold fetchCount. now rewrite filter_app, length_app.
Qed.

Lemma fetchCount_calls (x : PackageMeta) dir deps :
  fetchCount x (map (call dir) deps)
  = length (filter (fun d => PackageMeta_eqb (fst (Explode d)) x) deps).
Proof.
  unfold fetchCount. induction deps as [|d deps IH]; [reflexivity|].
  simpl.
  destruct (PackageFromDep_meta Config Explode d _ _ (surjective_pairing _))
    as [M _].
  rewrite M.
  destruct (PackageMeta_eqb (fst (Explode d)) x); simpl; now rewrite IH.
Qed.

(** X6.  [EnsureDependencies] does not deduplicate: when it succeeds, the
    number of fetch calls it has made for an identity is the number of
    declared references that parse to that identity, so a reference
    declared twice is fetched twice. *)
Theorem EnsureDependencies_fetches_every_occurrence pkg s pkg' s' x :
  EnsureDependencies Explode Exists Join EnsurePackage pkg s
  = ((pkg', None), s') ->
  fetchCount x (fetched s')
  = fetchCount x (fetched s)
    + length (filter (fun d => PackageMeta_eqb (fst (Explode d)) x)
                (Dependencies pkg)).
Proof.
  intros R. apply EnsureDependencies_success in R as (_ & _ & _ & R).
  apply ensureLoop_success in R as [Lg _].
  now rewrite Lg, fetchCount_app, fetchCount_calls.
Qed.

(** X7.  A fetch that fails stops the loop wherever it stands in the list:
    when the loop has come through the references before [d], [d] parses
    and its fetch fails, the method returns the error of the fetch behind
    the display string of the package, the call for [d] is the last in
    the log, and the world is the one the failed fetch left. *)
Theorem EnsureDependencies_fetch_failure pkg s before d after s1 dep w e :
  local pkg <> "" -> Exists (local pkg) (world s) = true ->
  Dependencies pkg = (before ++ d :: after)%list ->
  ensureLoop Explode EnsurePackage (vendor pkg) before s = (None, s1) ->
  PackageFromDep Explode d = (dep, None) ->
  EnsurePackage (vendor pkg) dep (world s1) = (w, Some e) ->
  exists err,
    EnsureDependencies Explode Exists Join EnsurePackage pkg s
    = ((pkg, Some err),
       {| world := w;
          fetched := (fetched s ++ map (call (vendor pkg)) (before ++ [d]))%list |})
    /\ Error err
       = "failed to ensure package " ++ Package_String dep ++ ": " ++ Error e
    /\ contains (Error err) (Error e).
Proof.
  intros L X D R P F.
  exists (errors_Wrapf e "failed to ensure package %s" [Package_String dep]).
  split; [|split].
  - rewrite EnsureDependencies_local, D by assumption.
    rewrite (ensureLoop_app _ _ _ _ _ _ _ _ _ R).
    rewrite (ensureLoop_fetch_error _ _ _ _ _ _ _ _ _ _ _ P F). simpl.
    apply ensureLoop_success in R as [Lg _].
    rewrite Lg, map_app. simpl. rewrite P. simpl.
    now rewrite <- app_assoc.
  - apply failed_ensure_text.
  - rewrite failed_ensure_text.
    exists ("failed to ensure package " ++ Package_String dep ++ ": "), "".
    now rewrite append_nil_r, !append_assoc.
Qed.

End ResolutionMore.

(** * [Init] ([rook/initialise.go]) *)

Module Initialise.

(** ** What [Init] uses of Go's library *)

(** The loop of [filepath.Ext] on a Unix path: from the last byte down,
    stop with no extension at a slash, stop at a dot with the text from
    that dot on; [tail] is the text already passed. *)
Fixpoint scanExt (reversed : list ascii) (tail : string) : string :=
  match reversed with
  | [] => ""
  | c :: before =>
      if Ascii.eqb c "/" then ""
      else if Ascii.eqb c "." then String c tail
      else scanExt before (String c tail)
  end.

(** [filepath.Ext]: the suffix beginning at the final dot of the final
    element of the path, empty when that element has no dot. *)
Definition Ext (path : string) : string :=
  scanExt (rev (list_ascii_of_string path)) "".

(** [strings.HasSuffix] *)
Definition HasSuffix (s suffix : string) : bool :=
  (String.length suffix <=? String.length s)%nat
  && (substring (String.length s - String.length suffix)
        (String.length suffix) s =? suffix).

(** [strings.TrimSuffix] *)
Definition TrimSuffix (s suffix : string) : string :=
  if HasSuffix s suffix
  then substring 0 (String.length s - String.length suffix) s
  else s.

(** The double quote, the line feed and the tab. *)
Definition quote : string := String "034" "".
Definition newline : string := String "010" "".
Definition tab : string := String "009" "".

(** ** The questions and the answers *)

(** The prompts of [survey] that [Init] builds. *)
Inductive Prompt : Type :=
| Select (Message : string) (Options : list string)
| Input (Message : string)
| MultiSelect (Message : string) (Options : list string).

(** [survey.Question]; [q_Required] says whether [Validate] is
    [survey.Required] or left out. *)
Record Question : Type := {
  q_Name : string;
  q_Prompt : Prompt;
  q_Required : bool
}.

(** The struct [answers] of [Init]. *)
Record Answers : Type := {
  a_Format : string;
  a_User : string;
  a_Repo : string;
  a_EntryGenerate : list string;
  a_Entry : string
}.

(** One visit of [filepath.Walk]: the path and [info.IsDir()]. *)
Record WalkEntry : Type := {
  entry_path : string;
  entry_isDir : bool
}.

(** The three questions [Init] always asks. *)
Definition firstQuestions : list Question :=
  [ {| q_Name := "Format";
       q_Prompt := Select "Preferred package format" ["json"; "yaml"];
       q_Required := true |};
    {| q_Name := "User";
       q_Prompt := Input "Your Name - If you plan to release, must be your GitHub username.";
       q_Required := true |};
    {| q_Name := "Repo";
       q_Prompt := Input "Package Name - If you plan to release, must be the GitHub project name.";
       q_Required := true |} ].

(** The question about the entry point, by what the walk has found. *)
Definition entryQuestion (pwnFiles incFiles : list string) : Question :=
  if (0 <? length pwnFiles)%nat then
    {| q_Name := "Entry";
       q_Prompt := Select "Choose an entry point - this is the file that is passed to the compiler." pwnFiles;
       q_Required := true |}
  else if (0 <? length incFiles)%nat then
    {| q_Name := "EntryGenerate";
       q_Prompt := MultiSelect "No .pwn found but .inc found - create .pwn file that includes .inc?" incFiles;
       q_Required := true |}
  else
    {| q_Name := "Entry";
       q_Prompt := Input "No .pwn or .inc files - enter name for new script";
       q_Required := false |}.

Section Init.

(** [types.BuildConfig] and [types.Runtime], with the zero value of the
    latter. *)
Variable BuildConfig : Type.
Variable RuntimeConfig : Type.
Variable zeroRuntime : RuntimeConfig.

(** The disk, the console and the user. *)
Variable World : Type.

(** What [filepath.Walk] visits under a directory, in its order, every
    visit with its file information. *)
Variable Walk : string -> World -> list WalkEntry.

(** [filepath.Rel], [filepath.Base] and [filepath.Join] of two elements. *)
Variable Rel : string -> string -> string * option error.
Variable Base : string -> string.
Variable Join : string -> string -> string.

(** [survey.Ask]: the answers of the user to the questions. *)
Variable Ask : list Question -> World -> World * (Answers * option error).

(** [ioutil.WriteFile] of a path, a content and a permission. *)
Variable WriteFile : string -> string -> nat -> World -> World * option error.

(** [types.Package.WriteDefinition]. *)
Variable WriteDefinition :
  types.Package BuildConfig RuntimeConfig -> World -> World * option error.

(** What [Init] does to the outside, in order. *)
Inductive Event : Type :=
| Green (format : string) (counts : list nat)
| Red (format : string) (args : list string)
| Asked (questions : list Question)
| WroteFile (path content : string) (perm : nat)
| WroteDefinition (pkg : types.Package BuildConfig RuntimeConfig).

Record InitState : Type := {
  world : World;
  events : list Event
}.

Definition emit (e : Event) (s : InitState) : InitState :=
  {| world := world s; events := (events s ++ [e])%list |}.

(** The function given to [filepath.Walk]: [files] are [pwnFiles] and
    [incFiles]. *)
Definition walkFn (dir : string) (files : list string * list string)
    (entry : WalkEntry) : (list string * list string) * option error :=
  if entry_isDir entry then (files, None)
  else
    let ext := Ext (entry_path entry) in
    let (rel, innerErr) := Rel dir (entry_path entry) in
    match innerErr with
    | Some e => (files, Some e)
    | None =>
        if ext =? ".pwn" then (((fst files ++ [rel])%list, snd files), None)
        else if ext =? ".inc" then ((fst files, (snd files ++ [rel])%list), None)
        else (files, None)
    end.

(** [filepath.Walk] over its visits: it stops at the first error of the
    function. *)
Fixpoint walk (dir : string) (entries : list WalkEntry)
    (files : list string * list string)
  : (list string * list string) * option error :=
  match entries with
  | [] => (files, None)
  | entry :: rest =>
      let (files', err) := walkFn dir files entry in
      match err with
      | Some e => (files', Some e)
      | None => walk dir rest files'
      end
  end.

(** The package literal of [Init]. *)
Definition newPackage (dir : string) (answers : Answers)
  : types.Package BuildConfig RuntimeConfig :=
  {| types.Parent := true;
     types.Local := dir;
     types.Vendor := "";
     types.Format := a_Format answers;
     types.AllDependencies := [];
     types.Identity := {| User := a_User answers; Repo := a_Repo answers;
                          Path := ""; Version := "" |};
     types.Contributors := []; types.Website := "";
     types.Entry := ""; types.Output := "";
     types.Dependencies := []; types.Builds := [];
     types.Runtime := zeroRuntime; types.Resources := [] |}.

(** The assignments [pkg.Entry = entry] and [pkg.Output = output]. *)
Definition setEntryOutput (pkg : types.Package BuildConfig RuntimeConfig)
    (entry output : string) : types.Package BuildConfig RuntimeConfig :=
  {| types.Parent := types.Parent pkg;
     types.Local := types.Local pkg;
     types.Vendor := types.Vendor pkg;
     types.Format := types.Format pkg;
     types.AllDependencies := types.AllDependencies pkg;
     types.Identity := types.Identity pkg;
     types.Contributors := types.Contributors pkg;
     types.Website := types.Website pkg;
     types.Entry := entry; types.Output := output;
     types.Dependencies := types.Dependencies pkg;
     types.Builds := types.Builds pkg;
     types.Runtime := types.Runtime pkg;
     types.Resources := types.Resources pkg |}.

(** One line of the generated script. *)
Definition includeLine (inc : string) : string :=
  Sprintf ("#include " ++ quote ++ "%s" ++ quote ++ "%s") [Base inc; newline].

(** The content of the buffer [buf]. *)
Definition generated (incs : list string) : string :=
  ("// generated by " ++ quote ++ "sampctl package generate" ++ quote)
  ++ (newline ++ newline)
  ++ String.concat "" (map includeLine incs)
  ++ (newline ++ "main() {" ++ newline)
  ++ (tab ++ "// write tests for libraries here and run " ++ quote
      ++ "sampctl package run" ++ quote)
  ++ (newline ++ "}" ++ newline).

(** The call of [WriteDefinition] and the return of [Init]. *)
Definition writeDefinition (pkg : types.Package BuildConfig RuntimeConfig)
    (s : InitState) : option error * InitState :=
  let (w, err) := WriteDefinition pkg (world s) in
  (err, {| world := w; events := (events s ++ [WroteDefinition pkg])%list |}).

(** The branch of [Init] that writes test.pwn: the error of [WriteFile] is
    printed in red and goes no further. *)
Definition generateEntry (dir : string) (answers : Answers) (s : InitState)
  : InitState :=
  if (0 <? length (a_EntryGenerate answers))%nat then
    let path := Join dir "test.pwn" in
    let content := generated (a_EntryGenerate answers) in
    let (w, err) := WriteFile path content 493 (world s) in
    let s' := {| world := w;
                 events := (events s ++ [WroteFile path content 493])%list |} in
    match err with
    | Some e =>
        emit (Red "failed to write generated tests.pwn file: %v" [Error e]) s'
    | None => s'
    end
  else s.

(** [func Init(dir string) (err error)] *)
Definition Init (dir : string) (s : InitState) : option error * InitState :=
  let (files, err) := walk dir (Walk dir (world s)) ([], []) in
  match err with
  | Some e => (Some e, s)
  | None =>
      let pwnFiles := fst files in
      let incFiles := snd files in
      let s1 := emit (Green "Found %d pwn files and %d inc files."
                        [length pwnFiles; length incFiles]) s in
      let questions :=
        (firstQuestions ++ [entryQuestion pwnFiles incFiles])%list in
      let '(w, (answers, err)) := Ask questions (world s1) in
      let s2 := {| world := w;
                   events := (events s1 ++ [Asked questions])%list |} in
      match err with
      | Some e => (Some e, s2)
      | None =>
          let pkg := newPackage dir answers in
          if negb (a_Entry answers =? "") then
            writeDefinition
              (setEntryOutput pkg (a_Entry answers)
                 (TrimSuffix (a_Entry answers) (Ext (a_Entry answers)) ++ ".amx"))
              s2
          else
            writeDefinition (setEntryOutput pkg "test.pwn" "test.amx")
              (generateEntry dir answers s2)
      end
  end.

End Init.

End Initialise.

(** ** Extensions and suffixes *)

Lemma string_of_list_ascii_app (l1 l2 : list ascii) :
  string_of_list_ascii (l1 ++ l2)%list
  = string_of_list_ascii l1 ++ string_of_list_ascii l2.
Proof.
  induction l1 as [|c l1 IH]; simpl; [reflexivity | now rewrite IH].
Qed.

Lemma append_cancel_l (a b c : string) : a ++ b = a ++ c -> b = c.
Proof.
  induction a as [|x a IH]; simpl; intros E; [exact E|].
  injection E as E. now apply IH.
Qed.

Lemma length_append (a b : string) :
  String.length (a ++ b) = String.length a + String.length b.
Proof.
  induction a as [|x a IH]; simpl; [reflexivity | now rewrite IH].
Qed.

Lemma substring_all (s : string) : substring 0 (String.length s) s = s.
Proof.
  induction s as [|c s IH]; simpl; [reflexivity | now rewrite IH].
Qed.

Lemma substring_prefix (a b : string) :
  substring 0 (String.length a) (a ++ b) = a.
Proof.
  induction a as [|x a IH]; simpl; [now destruct b | now rewrite IH].
Qed.

Lemma substring_skip (a b : string) (m : nat) :
  substring (String.length a) m (a ++ b) = substring 0 m b.
Proof.
  induction a as [|x a IH]; simpl; [reflexivity | exact IH].
Qed.

(** Trimming a suffix that is there takes it off. *)
Lemma TrimSuffix_app (stem suffix : string) :
  Initialise.TrimSuffix (stem ++ suffix) suffix = stem.
Proof.
  unfold Initialise.TrimSuffix, Initialise.HasSuffix.
  rewrite length_append.
  replace (String.length stem + String.length suffix - String.length suffix)
    with (String.length stem) by now rewrite Nat.add_sub.
  rewrite substring_skip, substring_all, String.eqb_refl, substring_prefix.
  replace (String.length suffix <=? String.length stem + String.length suffix)%nat
    with true; [reflexivity|].
  symmetry. apply Nat.leb_le. rewrite Nat.add_comm. apply Nat.le_add_r.
Qed.

(** The scan of [Ext] returns a suffix of what it has scanned. *)
Lemma scanExt_suffix (reversed : list ascii) (tail : string) :
  exists stem,
    string_of_list_ascii (rev reversed) ++ tail
    = stem ++ Initialise.scanExt reversed tail.
Proof.
  revert tail. induction reversed as [|c before IH]; intros tail; simpl.
  - exists tail. now rewrite append_nil_r.
  - rewrite string_of_list_ascii_app, append_assoc. simpl.
    destruct (Ascii.eqb c "/").
    + exists (string_of_list_ascii (rev before) ++ String c tail).
      now rewrite append_nil_r.
    + destruct (Ascii.eqb c ".").
      * now exists (string_of_list_ascii (rev before)).
      * apply IH.
Qed.

(** A path is what is in front of its extension, then its extension. *)
Lemma Ext_suffix (path : string) :
  path = Initialise.TrimSuffix path (Initialise.Ext path) ++ Initialise.Ext path.
Proof.
  unfold Initialise.Ext.
  destruct (scanExt_suffix (rev (list_ascii_of_string path)) "") as [stem E].
  rewrite rev_involutive, string_of_list_ascii_of_string, append_nil_r in E.
  rewrite E at 2. rewrite TrimSuffix_app. exact E.
Qed.

(** ** [Init] *)

Section InitFacts.

Variable BuildConfig : Type.
Variable RuntimeConfig : Type.
Variable zeroRuntime : RuntimeConfig.
Variable World : Type.
Variable Walk : string -> World -> list Initialise.WalkEntry.
Variable Rel : string -> string -> string * option error.
Variable Base : string -> string.
Variable Join : string -> string -> string.
Variable Ask :
  list Initialise.Question -> World -> World * (Initialise.Answers * option error).
Variable WriteFile : string -> string -> nat -> World -> World * option error.
Variable WriteDefinition :
  types.Package BuildConfig RuntimeConfig -> World -> World * option error.

Local Abbreviation IState := (Initialise.InitState BuildConfig RuntimeConfig World).
Local Abbreviation Init :=
  (Initialise.Init BuildConfig RuntimeConfig zeroRuntime World Walk Rel Base
     Join Ask WriteFile WriteDefinition).
Local Abbreviation walk := (Initialise.walk Rel).
Local Abbreviation events := (Initialise.events BuildConfig RuntimeConfig World).
Local Abbreviation world := (Initialise.world BuildConfig RuntimeConfig World).
Local Abbreviation Green := (Initialise.Green BuildConfig RuntimeConfig).
Local Abbreviation Red := (Initialise.Red BuildConfig RuntimeConfig).
Local Abbreviation Asked := (Initialise.Asked BuildConfig RuntimeConfig).
Local Abbreviation WroteFile := (Initialise.WroteFile BuildConfig RuntimeConfig).
Local Abbreviation WroteDefinition :=
  (Initialise.WroteDefinition BuildConfig RuntimeConfig).

(** The questions asked for the files found. *)
Local Abbreviation questionsFor files :=
  (Initialise.firstQuestions
   ++ [Initialise.entryQuestion (fst files) (snd files)])%list.

(** The line printed in green for the files found. *)
Local Abbreviation found files :=
  (Green "Found %d pwn files and %d inc files."
     [length (fst files); length (snd files)]).

(** The package [Init] hands to [WriteDefinition]. *)
Local Abbreviation manifest dir answers entry output :=
  (Initialise.setEntryOutput BuildConfig RuntimeConfig
     (Initialise.newPackage BuildConfig RuntimeConfig zeroRuntime dir answers)
     entry output).

Implicit Types s : IState.
Implicit Types files : list string * list string.
Implicit Types answers : Initialise.Answers.

(** The files a visit is counted under. *)
Definition isPwn (entry : Initialise.WalkEntry) : bool :=
  negb (Initialise.entry_isDir entry)
  && (Initialise.Ext (Initialise.entry_path entry) =? ".pwn").

Definition isInc (entry : Initialise.WalkEntry) : bool :=
  negb (Initialise.entry_isDir entry)
  && (Initialise.Ext (Initialise.entry_path entry) =? ".inc").

(** One visit, when [filepath.Rel] does not fail on it. *)
Lemma walkFn_counts (dir : string) files (entry : Initialise.WalkEntry) :
  (Initialise.entry_isDir entry = false ->
   snd (Rel dir (Initialise.entry_path entry)) = None) ->
  Initialise.walkFn Rel dir files entry
  = (((fst files
       ++ (if isPwn entry
           then [fst (Rel dir (Initialise.entry_path entry))] else []))%list,
      (snd files
       ++ (if isInc entry
           then [fst (Rel dir (Initialise.entry_path entry))] else []))%list),
     None).
Proof.
  intros R. unfold Initialise.walkFn, isPwn, isInc. destruct files as [pwn inc].
  destruct (Initialise.entry_isDir entry) eqn:D; simpl.
  - now rewrite !app_nil_r.
  - specialize (R eq_refl).
    destruct (Rel dir (Initialise.entry_path entry)) as [rel innerErr].
    simpl in R. subst innerErr. simpl.
    destruct (String.eqb_spec (Initialise.Ext (Initialise.entry_path entry)) ".pwn")
      as [E|E].
    + rewrite E. simpl. now rewrite app_nil_r.
    + destruct (Initialise.Ext (Initialise.entry_path entry) =? ".inc"); simpl;
        now rewrite !app_nil_r.
Qed.

(** X8.  When [filepath.Rel] fails on no file, the walk of [Init] sorts the
    visits by the extension of their full path: [pwnFiles] gets the
    relative paths of the files in .pwn, [incFiles] those of the files in
    .inc, both in the order of the walk; directories are passed over
    whatever their name, and so is every other file. *)
Theorem walk_classifies (dir : string) (entries : list Initialise.WalkEntry) files :
  (forall entry, In entry entries -> Initialise.entry_isDir entry = false ->
                 snd (Rel dir (Initialise.entry_path entry)) = None) ->
  Initialise.walk Rel dir entries files
  = (((fst files
       ++ map (fun e => fst (Rel dir (Initialise.entry_path e)))
            (filter isPwn entries))%list,
      (snd files
       ++ map (fun e => fst (Rel dir (Initialise.entry_path e)))
            (filter isInc entries))%list),
     None).
Proof.
  revert files. induction entries as [|entry rest IH]; intros files R.
  - simpl. rewrite !app_nil_r. now destruct files.
  - simpl. rewrite walkFn_counts by (apply R; now left).
    rewrite IH by (intros e I; apply R; now right). simpl.
    destruct (isPwn entry), (isInc entry); simpl;
      now rewrite <- ?app_assoc, ?app_nil_r.
Qed.

(** The two ways [Init] stops before it has a package. *)
Lemma Init_walk_error dir s files e :
  walk dir (Walk dir (world s)) ([], []) = (files, Some e) ->
  Init dir s = (Some e, s).
Proof.
  intros Wk. unfold Initialise.Init. now rewrite Wk.
Qed.

Lemma Init_ask_error dir s files w answers e :
  walk dir (Walk dir (world s)) ([], []) = (files, None) ->
  Ask (questionsFor files) (world s) = (w, (answers, Some e)) ->
  Init dir s
  = (Some e,
     {| Initialise.world := w;
        Initialise.events :=
          (events s ++ [found files; Asked (questionsFor files)])%list |}).
Proof.
  intros Wk A. unfold Initialise.Init. rewrite Wk.
  cbn [Initialise.world Initialise.events Initialise.emit]. rewrite A.
  now rewrite <- app_assoc.
Qed.

(** [Init] past the questions, with an entry named. *)
Lemma Init_entry dir s files w answers :
  walk dir (Walk dir (world s)) ([], []) = (files, None) ->
  Ask (questionsFor files) (world s) = (w, (answers, None)) ->
  Initialise.a_Entry answers <> "" ->
  Init dir s
  = Initialise.writeDefinition BuildConfig RuntimeConfig World WriteDefinition
      (manifest dir answers (Initialise.a_Entry answers)
         (Initialise.TrimSuffix (Initialise.a_Entry answers)
            (Initialise.Ext (Initialise.a_Entry answers)) ++ ".amx"))
      {| Initialise.world := w;
         Initialise.events :=
           (events s ++ [found files; Asked (questionsFor files)])%list |}.
Proof.
  intros Wk A N. unfold Initialise.Init. rewrite Wk.
  cbn [Initialise.world Initialise.events Initialise.emit]. rewrite A.
  apply String.eqb_neq in N. rewrite N. cbn [negb].
  now rewrite <- app_assoc.
Qed.

(** [Init] past the questions, with no entry named. *)
Lemma Init_no_entry dir s files w answers :
  walk dir (Walk dir (world s)) ([], []) = (files, None) ->
  Ask (questionsFor files) (world s) = (w, (answers, None)) ->
  Initialise.a_Entry answers = "" ->
  Init dir s
  = Initialise.writeDefinition BuildConfig RuntimeConfig World WriteDefinition
      (manifest dir answers "test.pwn" "test.amx")
      (Initialise.generateEntry BuildConfig RuntimeConfig World Base Join
         WriteFile dir answers
         {| Initialise.world := w;
            Initialise.events :=
              (events s ++ [found files; Asked (questionsFor files)])%list |}).
Proof.
  intros Wk A N. unfold Initialise.Init. rewrite Wk.
  cbn [Initialise.world Initialise.events Initialise.emit]. rewrite A, N.
  cbn [String.eqb negb]. now rewrite <- app_assoc.
Qed.

Lemma append_not_empty (a b : string) : b <> "" -> a ++ b <> "".
Proof.
  intros N E. destruct a; simpl in E; [contradiction | discriminate].
Qed.

(** The name [Init] gives the output: the entry with .amx in place of its
    extension.  It is the entry itself exactly for an entry in .amx. *)
Lemma output_is_entry_iff (entry : string) :
  Initialise.TrimSuffix entry (Initialise.Ext entry) ++ ".amx" = entry
  <-> Initialise.Ext entry = ".amx".
Proof.
  pose proof (Ext_suffix entry) as H. split; intros E.
  - symmetry. eapply append_cancel_l. transitivity entry; [exact E | exact H].
  - rewrite E in H |- *. now symmetry.
Qed.

(** X9.  [Init] writes nothing when it fails early: an error of the walk
    is returned with the state as it was, before any question; an error
    of the questions is returned after the green line and the questions,
    with no file and no definition written. *)
Theorem Init_stops_before_writing dir s files e :
  (walk dir (Walk dir (world s)) ([], []) = (files, Some e) ->
   Initialise.Init BuildConfig RuntimeConfig zeroRuntime World Walk Rel Base
     Join Ask WriteFile WriteDefinition dir s
   = (Some e, s))
  /\ (forall w answers,
         walk dir (Walk dir (world s)) ([], []) = (files, None) ->
         Ask (questionsFor files) (world s) = (w, (answers, Some e)) ->
         Initialise.Init BuildConfig RuntimeConfig zeroRuntime World Walk Rel
           Base Join Ask WriteFile WriteDefinition dir s
         = (Some e,
            {| Initialise.world := w;
               Initialise.events :=
                 (events s ++ [found files; Asked (questionsFor files)])%list |})).
Proof.
  split.
  - apply Init_walk_error.
  - intros w answers. apply Init_ask_error.
Qed.

(** X10.  When the user names an entry, [Init] writes no script: it hands
    to [WriteDefinition] a working package in [dir] with that entry and,
    as output, the entry with .amx in place of its extension, and returns
    what [WriteDefinition] returns.  The output is the entry itself
    exactly when the entry is in .amx. *)
Theorem Init_named_entry dir s files w answers :
  walk dir (Walk dir (world s)) ([], []) = (files, None) ->
  Ask (questionsFor files) (world s) = (w, (answers, None)) ->
  Initialise.a_Entry answers <> "" ->
  exists pkg stem,
    Initialise.Init BuildConfig RuntimeConfig zeroRuntime World Walk Rel Base
      Join Ask WriteFile WriteDefinition dir s
    = (snd (WriteDefinition pkg w),
       {| Initialise.world := fst (WriteDefinition pkg w);
          Initialise.events :=
            (events s ++ [found files; Asked (questionsFor files);
                          WroteDefinition pkg])%list |})
    /\ types.Parent pkg = true /\ types.Local pkg = dir
    /\ types.Entry pkg = Initialise.a_Entry answers
    /\ Initialise.a_Entry answers
       = stem ++ Initialise.Ext (Initialise.a_Entry answers)
    /\ types.Output pkg = stem ++ ".amx"
    /\ (types.Output pkg = types.Entry pkg
        <-> Initialise.Ext (Initialise.a_Entry answers) = ".amx").
Proof.
  intros Wk A N.
  exists (manifest dir answers (Initialise.a_Entry answers)
            (Initialise.TrimSuffix (Initialise.a_Entry answers)
               (Initialise.Ext (Initialise.a_Entry answers)) ++ ".amx")),
    (Initialise.TrimSuffix (Initialise.a_Entry answers)
       (Initialise.Ext (Initialise.a_Entry answers))).
  split.
  - rewrite (Init_entry _ _ _ _ _ Wk A N). unfold Initialise.writeDefinition.
    cbn [Initialise.world Initialise.events].
    destruct (WriteDefinition _ w) as [w' err]. cbn [fst snd].
    now rewrite <- app_assoc.
  - simpl. repeat split; try reflexivity.
    + apply Ext_suffix.
    + apply output_is_entry_iff.
    + apply output_is_entry_iff.
Qed.

(** X11.  When the entry the user names is in .pwn, the package [Init]
    hands to [WriteDefinition] passes [Validate]: entry and output are
    set and differ. *)
Theorem Init_pwn_entry_validates dir s files w answers :
  walk dir (Walk dir (world s)) ([], []) = (files, None) ->
  Ask (questionsFor files) (world s) = (w, (answers, None)) ->
  Initialise.Ext (Initialise.a_Entry answers) = ".pwn" ->
  exists pkg,
    In (WroteDefinition pkg)
       (events (snd (Initialise.Init BuildConfig RuntimeConfig zeroRuntime World
                       Walk Rel Base Join Ask WriteFile WriteDefinition dir s)))
    /\ forall (Config : Type) (rook : Package Config),
         sameManifest pkg rook -> Validate rook = None.
Proof.
  intros Wk A X.
  assert (N : Initialise.a_Entry answers <> "").
  { intros E. rewrite E in X. discriminate. }
  exists (manifest dir answers (Initialise.a_Entry answers)
            (Initialise.TrimSuffix (Initialise.a_Entry answers)
               (Initialise.Ext (Initialise.a_Entry answers)) ++ ".amx")).
  split.
  - rewrite (Init_entry _ _ _ _ _ Wk A N). unfold Initialise.writeDefinition.
    destruct (WriteDefinition _ _) as [w' err]. simpl.
    apply in_or_app. right. now left.
  - intros Config rook (_ & _ & E & O & _). simpl in E, O.
    apply Validate_ok; rewrite <- ?E, <- ?O.
    + exact N.
    + apply append_not_empty. discriminate.
    + intros Q. symmetry in Q. apply output_is_entry_iff in Q.
      rewrite X in Q. discriminate.
Qed.

(** X12.  When the entry the user names is in .amx, the package [Init]
    hands to [WriteDefinition] has its entry as its output, and [Validate]
    rejects it with the entry-equals-output error. *)
Theorem Init_amx_entry_rejected dir s files w answers :
  walk dir (Walk dir (world s)) ([], []) = (files, None) ->
  Ask (questionsFor files) (world s) = (w, (answers, None)) ->
  Initialise.Ext (Initialise.a_Entry answers) = ".amx" ->
  exists pkg,
    In (WroteDefinition pkg)
       (events (snd (Initialise.Init BuildConfig RuntimeConfig zeroRuntime World
                       Walk Rel Base Join Ask WriteFile WriteDefinition dir s)))
    /\ types.Output pkg = types.Entry pkg
    /\ forall (Config : Type) (rook : Package Config),
         sameManifest pkg rook -> Validate rook = Some errEntryEqualsOutput.
Proof.
  intros Wk A X.
  assert (N : Initialise.a_Entry answers <> "").
  { intros E. rewrite E in X. discriminate. }
  assert (Q : Initialise.TrimSuffix (Initialise.a_Entry answers)
                (Initialise.Ext (Initialise.a_Entry answers)) ++ ".amx"
              = Initialise.a_Entry answers)
    by now apply output_is_entry_iff.
  exists (manifest dir answers (Initialise.a_Entry answers)
            (Initialise.TrimSuffix (Initialise.a_Entry answers)
               (Initialise.Ext (Initialise.a_Entry answers)) ++ ".amx")).
  split; [|split].
  - rewrite (Init_entry _ _ _ _ _ Wk A N). unfold Initialise.writeDefinition.
    destruct (WriteDefinition _ _) as [w' err]. simpl.
    apply in_or_app. right. now left.
  - simpl. exact Q.
  - intros Config rook (_ & _ & E & O & _). simpl in E, O.
    apply Validate_same_file; rewrite <- ?E, <- ?O, ?Q; auto.
Qed.

(** X13.  [Init] does not return the error of writing test.pwn.  When the
    user names no entry and picks files to include, and [WriteFile] fails,
    the error is printed in red and [Init] goes on: it hands the package
    with the entry test.pwn to [WriteDefinition] and returns what
    [WriteDefinition] returns, nil when that succeeds. *)
Theorem Init_write_error_dropped dir s files w answers w' e :
  walk dir (Walk dir (world s)) ([], []) = (files, None) ->
  Ask (questionsFor files) (world s) = (w, (answers, None)) ->
  Initialise.a_Entry answers = "" ->
  Initialise.a_EntryGenerate answers <> [] ->
  WriteFile (Join dir "test.pwn")
    (Initialise.generated Base (Initialise.a_EntryGenerate answers)) 493 w
  = (w', Some e) ->
  Initialise.Init BuildConfig RuntimeConfig zeroRuntime World Walk Rel Base
    Join Ask WriteFile WriteDefinition dir s
  = (snd (WriteDefinition (manifest dir answers "test.pwn" "test.amx") w'),
     {| Initialise.world :=
          fst (WriteDefinition (manifest dir answers "test.pwn" "test.amx") w');
        Initialise.events :=
          (events s
           ++ [found files; Asked (questionsFor files);
               WroteFile (Join dir "test.pwn")
                 (Initialise.generated Base (Initialise.a_EntryGenerate answers))
                 493;
               Red "failed to write generated tests.pwn file: %v" [Error e];
               WroteDefinition (manifest dir answers "test.pwn" "test.amx")])%list |}).
Proof.
  intros Wk A N G F.
  rewrite (Init_no_entry _ _ _ _ _ Wk A N).
  unfold Initialise.generateEntry.
  destruct (Initialise.a_EntryGenerate answers) as [|inc incs] eqn:Q;
    [contradiction|].
  cbn [length Nat.ltb Nat.leb Initialise.world Initialise.events]. rewrite F.
  unfold Initialise.writeDefinition, Initialise.emit.
  cbn [Initialise.world Initialise.events].
  destruct (WriteDefinition _ w') as [w2 err]. cbn [fst snd].
  now rewrite <- !app_assoc.
Qed.

(** X14.  When the user names no entry and picks no file to include,
    [Init] writes no script, and the package it hands to
    [WriteDefinition] still has the entry test.pwn and the output
    test.amx. *)
Theorem Init_no_entry_no_script dir s files w answers :
  walk dir (Walk dir (world s)) ([], []) = (files, None) ->
  Ask (questionsFor files) (world s) = (w, (answers, None)) ->
  Initialise.a_Entry answers = "" ->
  Initialise.a_EntryGenerate answers = [] ->
  exists pkg,
    Initialise.Init BuildConfig RuntimeConfig zeroRuntime World Walk Rel Base
      Join Ask WriteFile WriteDefinition dir s
    = (snd (WriteDefinition pkg w),
       {| Initialise.world := fst (WriteDefinition pkg w);
          Initialise.events :=
            (events s ++ [found files; Asked (questionsFor files);
                          WroteDefinition pkg])%list |})
    /\ types.Entry pkg = "test.pwn" /\ types.Output pkg = "test.amx".
Proof.
  intros Wk A N G.
  exists (manifest dir answers "test.pwn" "test.amx").
  split; [|split; reflexivity].
  rewrite (Init_no_entry _ _ _ _ _ Wk A N).
  unfold Initialise.generateEntry. rewrite G.
  cbn [length Nat.ltb Nat.leb]. unfold Initialise.writeDefinition.
  cbn [Initialise.world Initialise.events].
  destruct (WriteDefinition _ w) as [w2 err]. cbn [fst snd].
  now rewrite <- !app_assoc.
Qed.

(** What the script branch adds to the log: nothing, or the write of
    test.pwn in [dir], with a red line behind it when the write failed. *)
Lemma generateEntry_events dir answers s :
  exists added,
    events (Initialise.generateEntry BuildConfig RuntimeConfig World Base Join
              WriteFile dir answers s)
    = (events s ++ added)%list
    /\ (forall pkg, ~ In (WroteDefinition pkg) added)
    /\ (forall path content perm,
           In (WroteFile path content perm) added ->
           path = Join dir "test.pwn" /\ perm = 493).
Proof.
  unfold Initialise.generateEntry.
  destruct (0 <? length (Initialise.a_EntryGenerate answers))%nat.
  - destruct (WriteFile _ _ _ _) as [w [e|]]; unfold Initialise.emit;
      cbn [Initialise.world Initialise.events].
    + eexists [_; _]. split; [now rewrite <- app_assoc|]. split.
      * intros pkg [H | [H | []]]; discriminate.
      * intros path content perm [H | [H | []]]; [|discriminate].
        injection H as <- _ <-. auto.
    + eexists [_]. split; [reflexivity|]. split.
      * intros pkg [H | []]; discriminate.
      * intros path content perm [H | []].
        injection H as <- _ <-. auto.
  - exists []. split; [now rewrite app_nil_r|]. split.
    + intros pkg [].
    + intros path content perm [].
Qed.

(** X15.  Whatever the files and the answers, every package [Init] hands
    to [WriteDefinition] is a working package in [dir] with an entry, an
    output that ends in .amx, and no dependency; and the only file [Init]
    itself writes is test.pwn in [dir]. *)
Theorem Init_writes_only_complete_packages dir s :
  exists added,
    events (snd (Initialise.Init BuildConfig RuntimeConfig zeroRuntime World
                   Walk Rel Base Join Ask WriteFile WriteDefinition dir s))
    = (events s ++ added)%list
    /\ (forall pkg,
           In (WroteDefinition pkg) added ->
           types.Parent pkg = true /\ types.Local pkg = dir
           /\ types.Entry pkg <> ""
           /\ (exists stem, types.Output pkg = stem ++ ".amx")
           /\ types.Dependencies pkg = []
           /\ types.AllDependencies pkg = [])
    /\ (forall path content perm,
           In (WroteFile path content perm) added ->
           path = Join dir "test.pwn" /\ perm = 493).
Proof.
  destruct (walk dir (Walk dir (world s)) ([], [])) as [files [e|]] eqn:Wk.
  { rewrite (Init_walk_error _ _ _ _ Wk). exists []. simpl.
    split; [now rewrite app_nil_r|]. split; [intros pkg [] | intros p c m []]. }
  destruct (Ask (questionsFor files) (world s)) as [w [answers [e|]]] eqn:A.
  { rewrite (Init_ask_error _ _ _ _ _ _ Wk A). eexists [_; _]. simpl.
    split; [reflexivity|]. split.
    - intros pkg [H | [H | []]]; discriminate.
    - intros p c m [H | [H | []]]; discriminate. }
  destruct (String.eqb_spec (Initialise.a_Entry answers) "") as [N|N].
  - rewrite (Init_no_entry _ _ _ _ _ Wk A N).
    destruct (generateEntry_events dir answers
                {| Initialise.world := w;
                   Initialise.events :=
                     (events s ++ [found files; Asked (questionsFor files)])%list |})
      as (added & Ev & NoDef & Files).
    unfold Initialise.writeDefinition.
    destruct (WriteDefinition _ _) as [w2 err]. cbn [snd Initialise.events].
    rewrite Ev. cbn [Initialise.events].
    exists ([found files; Asked (questionsFor files)] ++ added
            ++ [WroteDefinition (manifest dir answers "test.pwn" "test.amx")])%list.
    split; [now rewrite <- !app_assoc|]. split.
    + intros pkg H. simpl in H. destruct H as [H | [H | H]]; try discriminate.
      apply in_app_or in H as [H | [H | []]]; [now apply NoDef in H|].
      injection H as <-. simpl. repeat split; try discriminate.
      now exists "test".
    + intros p c m H. simpl in H. destruct H as [H | [H | H]]; try discriminate.
      apply in_app_or in H as [H | [H | []]]; [|discriminate].
      now apply Files in H.
  - rewrite (Init_entry _ _ _ _ _ Wk A N). unfold Initialise.writeDefinition.
    destruct (WriteDefinition _ _) as [w2 err]. cbn [snd Initialise.events].
    eexists [_; _; _]. split; [now rewrite <- app_assoc|]. split.
    + intros pkg [H | [H | [H | []]]]; try discriminate.
      injection H as <-. simpl. repeat split; auto.
      now eexists.
    + intros p c m [H | [H | [H | []]]]; discriminate.
Qed.

End InitFacts.

(** * The further properties on concrete packages and directories *)

Module InitDemo.

(** The disk: the files written so far. *)
Definition World : Type := list string.

Definition file (path : string) : Initialise.WalkEntry :=
  {| Initialise.entry_path := path; Initialise.entry_isDir := false |}.

Definition directory (path : string) : Initialise.WalkEntry :=
  {| Initialise.entry_path := path; Initialise.entry_isDir := true |}.

(** A project with a script, a library and a directory named like a script. *)
Definition withScript : list Initialise.WalkEntry :=
  [ directory "/work/mode"; file "/work/mode/README.md";
    directory "/work/mode/backup.pwn"; file "/work/mode/backup.pwn/old.txt";
    file "/work/mode/gamemode.pwn"; file "/work/mode/lib.inc" ].

(** A project with libraries only. *)
Definition onlyLibraries : list Initialise.WalkEntry :=
  [ directory "/work/mode"; file "/work/mode/lib.inc";
    directory "/work/mode/sub"; file "/work/mode/sub/util.inc" ].

(** An empty project. *)
Definition empty : list Initialise.WalkEntry := [ directory "/work/mode" ].

(** [filepath.Rel] for a path under the directory. *)
Definition Rel (dir path : string) : string * option error :=
  if String.prefix (dir ++ "/") path
  then (substring (String.length dir + 1) (String.length path) path, None)
  else ("", Some (errors_New "Rel: can't make path relative")).

(** [filepath.Base] on a non-empty path with no slash at its end: its last
    element. *)
Definition Base (path : string) : string :=
  last (Demo.segments (String.length path) path) path.

(** A user who takes the first file offered, includes every library
    offered, and types [typed] when asked for a name. *)
Definition Ask (typed : string) (questions : list Initialise.Question)
    (w : World) : World * (Initialise.Answers * option error) :=
  let prompt :=
    Initialise.q_Prompt
      (last questions
         {| Initialise.q_Name := ""; Initialise.q_Prompt := Initialise.Input "";
            Initialise.q_Required := false |}) in
  (w, ({| Initialise.a_Format := "json";
          Initialise.a_User := "me";
          Initialise.a_Repo := "mode";
          Initialise.a_EntryGenerate :=
            match prompt with
            | Initialise.MultiSelect _ options => options
            | _ => []
            end;
          Initialise.a_Entry :=
            match prompt with
            | Initialise.Select _ (first :: _) => first
            | Initialise.Input _ => typed
            | _ => ""
            end |}, None)).

(** A disk that takes every write, and one that takes none. *)
Definition WriteFile (path content : string) (perm : nat) (w : World)
  : World * option error := (path :: w, None).

Definition WriteFile_readOnly (path content : string) (perm : nat) (w : World)
  : World * option error := (w, Some (errors_New "read-only file system")).

Definition WriteDefinition (pkg : types.Package unit unit) (w : World)
  : World * option error :=
  (Demo.Join (types.Local pkg) ("pawn." ++ types.Format pkg) :: w, None).

(** [Init] on a tree, with a user and a way to write files. *)
Definition run (tree : list Initialise.WalkEntry) (typed : string)
    (writeFile : string -> string -> nat -> World -> World * option error)
  : string -> Initialise.InitState unit unit World
    -> option error * Initialise.InitState unit unit World :=
  Initialise.Init unit unit tt World (fun _ _ => tree) Rel Base Demo.Join
    (Ask typed) writeFile WriteDefinition.

Definition start : Initialise.InitState unit unit World :=
  {| Initialise.world := []; Initialise.events := [] |}.

End InitDemo.

Section MoreExamples.

Local Abbreviation demo thm :=
  (thm unit Demo.World Demo.Explode Demo.Exists Demo.Join Demo.EnsurePackage).
Local Abbreviation vendorDir := "/work/mode/dependencies".
Local Abbreviation depOf x :=
  {| local := ""; Meta := x; Contributors := []; Website := ""; Entry := "";
     Output := ""; Dependencies := []; Builds := @nil unit; Resources := [] |}.
Local Abbreviation fetchOf x := {| fetch_dir := vendorDir; fetch_dep := depOf x |}.
Local Abbreviation idX := {| User := "x"; Repo := "B"; Path := ""; Version := "" |}.

(** X6 on a project that declares a/A twice: a/A is fetched twice. *)
Lemma EnsureDependencies_fetches_every_occurrence_witness :
  Demo.resolve (Demo.project ["a/A"; "a/A"]) Demo.start
  = ((Demo.project ["a/A"; "a/A"], None),
     {| world := ["/work/mode/dependencies/a/A"; "/work/mode/dependencies/a/A";
                  "/work/mode"];
        fetched := [fetchOf Demo.idA; fetchOf Demo.idA] |})
  /\ fetchCount Demo.idA [fetchOf Demo.idA; fetchOf Demo.idA] = 2.
Proof.
  split; [reflexivity|].
  exact (demo EnsureDependencies_fetches_every_occurrence
           (Demo.project ["a/A"; "a/A"]) Demo.start
           (Demo.project ["a/A"; "a/A"])
           {| world := ["/work/mode/dependencies/a/A";
                        "/work/mode/dependencies/a/A"; "/work/mode"];
              fetched := [fetchOf Demo.idA; fetchOf Demo.idA] |}
           Demo.idA eq_refl).
Defined.

(** X7 on a project whose second dependency is not on the remote host. *)
Lemma EnsureDependencies_fetch_failure_witness :
  exists err,
    Demo.resolve (Demo.project ["a/A"; "x/B"; "c/C"]) Demo.start
    = ((Demo.project ["a/A"; "x/B"; "c/C"], Some err),
       {| world := ["/work/mode/dependencies/a/A"; "/work/mode"];
          fetched := [fetchOf Demo.idA; fetchOf idX] |})
    /\ Error err = "failed to ensure package x/B:: repository not found"
    /\ contains (Error err) "repository not found".
Proof.
  apply (demo EnsureDependencies_fetch_failure
           (Demo.project ["a/A"; "x/B"; "c/C"]) Demo.start
           ["a/A"] "x/B" ["c/C"]
           {| world := ["/work/mode/dependencies/a/A"; "/work/mode"];
              fetched := [fetchOf Demo.idA] |}
           (depOf idX)
           ["/work/mode/dependencies/a/A"; "/work/mode"]
           (errors_New "repository not found")).
  - discriminate.
  - reflexivity.
  - reflexivity.
  - reflexivity.
  - reflexivity.
  - reflexivity.
Defined.

Local Abbreviation init thm tree typed writeFile :=
  (thm unit unit tt InitDemo.World (fun _ _ => tree) InitDemo.Rel InitDemo.Base
     Demo.Join (InitDemo.Ask typed) writeFile InitDemo.WriteDefinition).

(** X8 on a project with a script, a library, a text file and a directory
    named backup.pwn. *)
Lemma walk_classifies_witness :
  Initialise.walk InitDemo.Rel "/work/mode" InitDemo.withScript ([], [])
  = ((["gamemode.pwn"], ["lib.inc"]), None).
Proof.
  apply (walk_classifies InitDemo.Rel "/work/mode" InitDemo.withScript ([], [])).
  intros entry I D.
  repeat (destruct I as [<- | I]; [first [reflexivity | discriminate D]|]).
  destruct I.
Defined.

(** X10 and X11 on the same project: the user takes gamemode.pwn. *)
Lemma Init_named_entry_witness :
  exists pkg stem,
    InitDemo.run InitDemo.withScript "" InitDemo.WriteFile "/work/mode"
      InitDemo.start
    = (snd (InitDemo.WriteDefinition pkg []),
       {| Initialise.world := fst (InitDemo.WriteDefinition pkg []);
          Initialise.events :=
            [ Initialise.Green unit unit "Found %d pwn files and %d inc files."
                [1; 1];
              Initialise.Asked unit unit
                (Initialise.firstQuestions
                 ++ [Initialise.entryQuestion ["gamemode.pwn"] ["lib.inc"]])%list;
              Initialise.WroteDefinition unit unit pkg ] |})
    /\ types.Parent pkg = true /\ types.Local pkg = "/work/mode"
    /\ types.Entry pkg = "gamemode.pwn"
    /\ "gamemode.pwn" = stem ++ ".pwn"
    /\ types.Output pkg = stem ++ ".amx"
    /\ (types.Output pkg = types.Entry pkg <-> ".pwn" = ".amx").
Proof.
  apply (init Init_named_entry InitDemo.withScript "" InitDemo.WriteFile
           "/work/mode" InitDemo.start (["gamemode.pwn"], ["lib.inc"]) []
           (fst (snd (InitDemo.Ask ""
                        (Initialise.firstQuestions
                         ++ [Initialise.entryQuestion ["gamemode.pwn"] ["lib.inc"]])
                        [])))).
  - reflexivity.
  - reflexivity.
  - discriminate.
Defined.

Lemma Init_pwn_entry_validates_witness :
  exists pkg,
    In (Initialise.WroteDefinition unit unit pkg)
       (Initialise.events unit unit InitDemo.World
          (snd (InitDemo.run InitDemo.withScript "" InitDemo.WriteFile
                  "/work/mode" InitDemo.start)))
    /\ forall (Config : Type) (rook : Package Config),
         sameManifest pkg rook -> Validate rook = None.
Proof.
  apply (init Init_pwn_entry_validates InitDemo.withScript "" InitDemo.WriteFile
           "/work/mode" InitDemo.start (["gamemode.pwn"], ["lib.inc"]) []
           (fst (snd (InitDemo.Ask ""
                        (Initialise.firstQuestions
                         ++ [Initialise.entryQuestion ["gamemode.pwn"] ["lib.inc"]])
                        [])))).
  - reflexivity.
  - reflexivity.
  - reflexivity.
Defined.

(** X12 on an empty project: the user types mode.amx. *)
Lemma Init_amx_entry_rejected_witness :
  exists pkg,
    In (Initialise.WroteDefinition unit unit pkg)
       (Initialise.events unit unit InitDemo.World
          (snd (InitDemo.run InitDemo.empty "mode.amx" InitDemo.WriteFile
                  "/work/mode" InitDemo.start)))
    /\ types.Output pkg = types.Entry pkg
    /\ forall (Config : Type) (rook : Package Config),
         sameManifest pkg rook -> Validate rook = Some errEntryEqualsOutput.
Proof.
  apply (init Init_amx_entry_rejected InitDemo.empty "mode.amx"
           InitDemo.WriteFile "/work/mode" InitDemo.start ([], []) []
           (fst (snd (InitDemo.Ask "mode.amx"
                        (Initialise.firstQuestions
                         ++ [Initialise.entryQuestion [] []]) [])))).
  - reflexivity.
  - reflexivity.
  - reflexivity.
Defined.

(** X13 on a project with libraries only, on a disk that takes no file:
    [Init] returns nil. *)
Lemma Init_write_error_dropped_witness :
  fst (InitDemo.run InitDemo.onlyLibraries "" InitDemo.WriteFile_readOnly
         "/work/mode" InitDemo.start) = None.
Proof.
  unfold InitDemo.run.
  rewrite (init Init_write_error_dropped InitDemo.onlyLibraries ""
             InitDemo.WriteFile_readOnly "/work/mode" InitDemo.start
             ([], ["lib.inc"; "sub/util.inc"]) []
             (fst (snd (InitDemo.Ask ""
                          (Initialise.firstQuestions
                           ++ [Initialise.entryQuestion []
                                 ["lib.inc"; "sub/util.inc"]]) [])))
             [] (errors_New "read-only file system")
             eq_refl eq_refl eq_refl
             ltac:(discriminate) eq_refl).
  reflexivity.
Defined.

(** X14 on an empty project: the user types nothing. *)
Lemma Init_no_entry_no_script_witness :
  exists pkg,
    InitDemo.run InitDemo.empty "" InitDemo.WriteFile "/work/mode" InitDemo.start
    = (snd (InitDemo.WriteDefinition pkg []),
       {| Initialise.world := fst (InitDemo.WriteDefinition pkg []);
          Initialise.events :=
            [ Initialise.Green unit unit "Found %d pwn files and %d inc files."
                [0; 0];
              Initialise.Asked unit unit
                (Initialise.firstQuestions
                 ++ [Initialise.entryQuestion [] []])%list;
              Initialise.WroteDefinition unit unit pkg ] |})
    /\ types.Entry pkg = "test.pwn" /\ types.Output pkg = "test.amx".
Proof.
  apply (init Init_no_entry_no_script InitDemo.empty "" InitDemo.WriteFile
           "/work/mode" InitDemo.start ([], []) []
           (fst (snd (InitDemo.Ask ""
                        (Initialise.firstQuestions
                         ++ [Initialise.entryQuestion [] []]) [])))).
  - reflexivity.
  - reflexivity.
  - reflexivity.
  - reflexivity.
Defined.

End MoreExamples.
